(** * Legal-Document-AI: upload staging, file selection and chat message flow

    A shallow embedding of the state logic of
    [src/components/chat/UploadModal.tsx] and [src/pages/ChatPage.tsx]
    (with the [ChatSection] variants that accompany it), and the
    properties of that logic.

    React state is modelled by explicit state passing: every handler is a
    function from the state of the render it was created in to the next
    state.  An [async] handler is split at its [await]: the part before it
    runs when the handler is called and yields the values its continuation
    keeps in its closure, the part after it runs when the promise settles.

    Strings are sequences of code units; the development uses the code
    units below 256, one [ascii] each. *)

From Stdlib Require Import List String Ascii Bool Arith ZArith NArith Lia.
From Stdlib Require Import DecimalString DecimalPos DecimalN.
Import ListNotations.

Local Open Scope list_scope.
Local Open Scope string_scope.

(* ================================================================== *)
(** ** JavaScript values the handlers rely on *)
(* ================================================================== *)

Module JS.

(** The value carried by a [throw] or a rejected promise, as far as the
    handlers look at it: [error?.message]. *)
Record Error := mkError { message : option string }.

(** Completion of a synchronous computation. *)
Inductive Completion (A : Type) : Type :=
| Normal (a : A)
| Thrown (e : Error).
Arguments Normal {A} a.
Arguments Thrown {A} e.

Definition bind {A B} (c : Completion A) (k : A -> Completion B)
  : Completion B :=
  match c with
  | Normal a => k a
  | Thrown e => Thrown e
  end.

(** Settlement of a promise. *)
Inductive Settled (A : Type) : Type :=
| Fulfilled (a : A)
| Rejected (e : Error).
Arguments Fulfilled {A} a.
Arguments Rejected {A} e.

(** [s.startsWith(p)] *)
Fixpoint startsWith (s p : string) {struct p} : bool :=
  match p with
  | EmptyString => true
  | String a p' =>
      match s with
      | EmptyString => false
      | String b s' => Ascii.eqb a b && startsWith s' p'
      end
  end.

(** [s.includes(needle)]: [needle] occurs in [s] as a substring. *)
Fixpoint includes (s needle : string) : bool :=
  startsWith s needle
  || match s with
     | EmptyString => false
     | String _ s' => includes s' needle
     end.

(** White space and line terminators below code unit 256:
    TAB, LF, VT, FF, CR, SP and NBSP. *)
Definition isWhiteSpace (c : ascii) : bool :=
  let n := nat_of_ascii c in
  ((9 <=? n)%nat && (n <=? 13)%nat) || (n =? 32)%nat || (n =? 160)%nat.

Fixpoint trimStart (s : string) : string :=
  match s with
  | EmptyString => EmptyString
  | String c s' => if isWhiteSpace c then trimStart s' else s
  end.

Fixpoint trimEnd (s : string) : string :=
  match s with
  | EmptyString => EmptyString
  | String c s' =>
      let t := trimEnd s' in
      if isWhiteSpace c && String.eqb t EmptyString
      then EmptyString
      else String c t
  end.

(** [s.trim()] *)
Definition trim (s : string) : string := trimEnd (trimStart s).

(** Truthiness of a string: only the empty string is falsy. *)
Definition truthy (s : string) : bool := negb (String.eqb s EmptyString).

(** [x || undefined] on an optional string: a missing, [null] or empty
    value becomes absent. *)
Definition orUndefined (x : option string) : option string :=
  match x with
  | Some s => if truthy s then Some s else None
  | None => None
  end.

(** [x || d] on an optional string with a string default. *)
Definition orElse (x : option string) (d : string) : string :=
  match orUndefined x with
  | Some s => s
  | None => d
  end.

(** [!x] on an optional string. *)
Definition falsy (x : option string) : bool :=
  match orUndefined x with
  | Some _ => false
  | None => true
  end.

(** [n.toString()] for a non-negative integer. *)
Definition toString (n : N) : string :=
  NilEmpty.string_of_uint (N.to_uint n).

(** [xs[i]]: [undefined] outside the array. *)
Definition index {A} (xs : list A) (i : Z) : option A :=
  if (0 <=? i)%Z then nth_error xs (Z.to_nat i) else None.

(** [xs.filter((x, i) => p x i)] *)
Fixpoint filteri_from {A} (p : A -> Z -> bool) (i : Z) (xs : list A)
  : list A :=
  match xs with
  | [] => []
  | x :: xs' =>
      if p x i then x :: filteri_from p (i + 1) xs'
      else filteri_from p (i + 1) xs'
  end.

Definition filteri {A} (p : A -> Z -> bool) (xs : list A) : list A :=
  filteri_from p 0 xs.

(** [xs.filter(p)] where the callback may throw: the first throw
    aborts the traversal; on an empty array the callback never runs. *)
Fixpoint filterC {A} (p : A -> Completion bool) (xs : list A)
  : Completion (list A) :=
  match xs with
  | [] => Normal []
  | x :: xs' =>
      bind (p x) (fun keep =>
      bind (filterC p xs') (fun rest =>
      Normal (if keep then x :: rest else rest)))
  end.

(** Reading a property of [undefined] throws a [TypeError]. *)
Definition typeError : Error :=
  mkError (Some "Cannot read properties of undefined").

End JS.

Notation "x <- c ;; k" := (JS.bind c (fun x => k))
  (at level 61, c at next level, right associativity).

(* ================================================================== *)
(** ** src/components/chat/UploadModal.tsx *)
(* ================================================================== *)

Module UploadModal.

(** The fields of a browser [File] the modal reads. *)
Record File := mkFile { name : string; type : string; size : N }.

(** [selectedFiles] and [errors], the two pieces of state the handlers
    below read and write. *)
Record State := mkState {
  selectedFiles : list File;
  errors : list string
}.

Definition initial : State := mkState [] [].

Definition MAX_FILES : nat := 50.
Definition MAX_FILE_SIZE : N := 10 * 1024 * 1024.
Definition ACCEPTED_TYPES : list string := ["application/pdf"].

(** [names.includes(x)] on an array of strings. *)
Definition arrayIncludes (xs : list string) (x : string) : bool :=
  existsb (String.eqb x) xs.

Section Handlers.

(** Prop [currentFileCount]: the number of files already stored. *)
Variable currentFileCount : nat.

Definition validateFile (st : State) (file : File) : option string :=
  if negb (arrayIncludes ACCEPTED_TYPES (type file)) then
    Some (name file ++ ": Only PDF files are supported")
  else if (MAX_FILE_SIZE <? size file)%N then
    Some (name file ++ ": File size must be under 10MB")
  else if (MAX_FILES <=? currentFileCount + List.length (selectedFiles st))%nat
  then
    Some ("Cannot exceed " ++ JS.toString (N.of_nat MAX_FILES)
          ++ " files total")
  else None.

(** The body of the [forEach] in [handleFiles]; the accumulator is the
    pair of local arrays [newErrors] and [validFiles]. *)
Definition handleFile (st : State) (existingNames : list string)
    (acc : list string * list File) (file : File)
  : list string * list File :=
  let '(newErrors, validFiles) := acc in
  if arrayIncludes existingNames (name file) then
    ((newErrors ++ [(name file ++ ": File already selected")%string])%list,
     validFiles)
  else
    match JS.orUndefined (validateFile st file) with
    | Some error => ((newErrors ++ [error])%list, validFiles)
    | None => (newErrors, (validFiles ++ [file])%list)
    end.

Definition scanFiles (st : State) (fileArray : list File)
  : list string * list File :=
  let existingNames := map name (selectedFiles st) in
  fold_left (handleFile st existingNames) fileArray ([], []).

(** The filter of [setErrors] in [handleFiles]: an earlier entry stays
    unless it includes the name of a file of the batch. *)
Definition keepsError (fileArray : list File) (e : string) : bool :=
  negb (existsb (fun f => JS.includes e (name f)) fileArray).

Definition handleFiles (st : State) (fileArray : list File) : State :=
  let '(newErrors, validFiles) := scanFiles st fileArray in
  {| errors :=
       (filter (keepsError fileArray) (errors st) ++ newErrors)%list;
     selectedFiles := (selectedFiles st ++ validFiles)%list |}.

(** [removedFile.name] where [removedFile] may be [undefined]. *)
Definition nameOf (removedFile : option File) : JS.Completion string :=
  match removedFile with
  | Some f => JS.Normal (name f)
  | None => JS.Thrown JS.typeError
  end.

(** [removedFile.name] is read inside the callback of the filter over
    [errors], once per entry. *)
Definition removeFile (st : State) (index : Z) : JS.Completion State :=
  let removedFile := JS.index (selectedFiles st) index in
  let files' :=
    JS.filteri (fun _ i => negb (i =? index)%Z) (selectedFiles st) in
  errors' <- JS.filterC
               (fun error =>
                  n <- nameOf removedFile ;;
                  JS.Normal (negb (JS.includes error n)))
               (errors st) ;;
  JS.Normal {| selectedFiles := files'; errors := errors' |}.

Definition clearAllErrors (st : State) : State :=
  {| selectedFiles := selectedFiles st; errors := [] |}.

(** [handleUpload], with the settlement of [await onFilesUploaded(...)]
    given by the prop [onFilesUploaded]. *)
Definition handleUpload
    (onFilesUploaded : list File -> JS.Settled unit) (st : State)
  : State :=
  if (List.length (selectedFiles st) =? 0)%nat then st
  else
    let st1 := clearAllErrors st in
    match onFilesUploaded (selectedFiles st) with
    | JS.Fulfilled _ => {| selectedFiles := []; errors := [] |}
    | JS.Rejected error =>
        {| selectedFiles := selectedFiles st1;
           errors := ["Upload failed: "
                      ++ JS.orElse (JS.message error) "Please try again"] |}
    end.

Definition canUpload (isUploading : bool) (st : State) : bool :=
  (0 <? List.length (selectedFiles st))%nat
  && negb isUploading
  && (currentFileCount + List.length (selectedFiles st) <=? MAX_FILES)%nat.

End Handlers.

End UploadModal.

(* ================================================================== *)
(** ** Types shared by the chat components *)
(* ================================================================== *)

Inductive Sender := user | ai.

(** [interface Message], declared alike in [ChatPage] and [ChatSection].
    Dates are milliseconds since the epoch. *)
Module Message.
Record t := mk {
  id : string;
  text : string;
  sender : Sender;
  timestamp : N;
  conversation_id : option string
}.
End Message.

(** Modelled from the spec: the request type of the chat operation of
    [hooks/api], [{ message, file_id?, conversation_id? }]. *)
Module ChatRequest.
Record t := mk {
  message : string;
  file_id : option string;
  conversation_id : option string
}.
End ChatRequest.

(** Modelled from the spec: the response type of the chat operation of
    [hooks/api], [{ response?, message_id?, conversation_id? }]. *)
Module ChatResponse.
Record t := mk {
  response : option string;
  message_id : option string;
  conversation_id : option string
}.
End ChatResponse.

(** [interface UploadedFile] *)
Module UploadedFile.
Record t := mk {
  id : string;
  name : string;
  size : N;
  type : string;
  uploadedAt : N
}.
End UploadedFile.

(* ================================================================== *)
(** ** src/pages/ChatPage.tsx *)
(* ================================================================== *)

Module ChatPage.

Record State := mkState {
  showUploadModal : bool;
  selectedFiles : list string;
  activeDocument : option string;
  activeFileId : option string;
  conversationId : option string;
  messages : list Message.t;
  inputText : string;
  (** [uploadedFiles], mapped from the data of the last file listing *)
  uploadedFiles : list UploadedFile.t
}.

Definition initial : State :=
  mkState false [] None None None [] "" [].

Definition setShowUploadModal v st :=
  mkState v (selectedFiles st) (activeDocument st) (activeFileId st)
    (conversationId st) (messages st) (inputText st) (uploadedFiles st).
Definition setSelectedFiles v st :=
  mkState (showUploadModal st) v (activeDocument st) (activeFileId st)
    (conversationId st) (messages st) (inputText st) (uploadedFiles st).
Definition setActiveDocument v st :=
  mkState (showUploadModal st) (selectedFiles st) v (activeFileId st)
    (conversationId st) (messages st) (inputText st) (uploadedFiles st).
Definition setActiveFileId v st :=
  mkState (showUploadModal st) (selectedFiles st) (activeDocument st) v
    (conversationId st) (messages st) (inputText st) (uploadedFiles st).
Definition setConversationId v st :=
  mkState (showUploadModal st) (selectedFiles st) (activeDocument st)
    (activeFileId st) v (messages st) (inputText st) (uploadedFiles st).
Definition setMessages v st :=
  mkState (showUploadModal st) (selectedFiles st) (activeDocument st)
    (activeFileId st) (conversationId st) v (inputText st)
    (uploadedFiles st).
Definition setInputText v st :=
  mkState (showUploadModal st) (selectedFiles st) (activeDocument st)
    (activeFileId st) (conversationId st) (messages st) v
    (uploadedFiles st).
(** The listing is replaced when a refetch delivers new data. *)
Definition setUploadedFiles v st :=
  mkState (showUploadModal st) (selectedFiles st) (activeDocument st)
    (activeFileId st) (conversationId st) (messages st) (inputText st) v.

(** The loop of [handleFilesUploaded]: [await mutateAsync(file)] for each
    file in turn; the first rejection leaves the loop. *)
Fixpoint uploadAll (mutateAsync : UploadModal.File -> JS.Settled unit)
    (files : list UploadModal.File) : JS.Settled unit :=
  match files with
  | [] => JS.Fulfilled tt
  | file :: rest =>
      match mutateAsync file with
      | JS.Fulfilled _ => uploadAll mutateAsync rest
      | JS.Rejected e => JS.Rejected e
      end
  end.

(** [handleFilesUploaded]: the new state and the settlement of the
    promise it returns.  The [catch] logs the error and returns, so the
    promise is fulfilled on that path too. *)
Definition handleFilesUploaded
    (mutateAsync : UploadModal.File -> JS.Settled unit)
    (refetch : JS.Settled (list UploadedFile.t))
    (files : list UploadModal.File) (st : State)
  : State * JS.Settled unit :=
  match uploadAll mutateAsync files with
  | JS.Fulfilled _ =>
      match refetch with
      | JS.Fulfilled listing =>
          (setShowUploadModal false (setUploadedFiles listing st),
           JS.Fulfilled tt)
      | JS.Rejected _ => (st, JS.Fulfilled tt)
      end
  | JS.Rejected _ => (st, JS.Fulfilled tt)
  end.

(** The effect with dependencies [uploadedFiles, selectedFiles.length]. *)
Definition defaultSelection (st : State) : State :=
  if (List.length (selectedFiles st) =? 0)%nat
     && (0 <? List.length (uploadedFiles st))%nat
  then
    match JS.index (uploadedFiles st) 0 with
    | Some firstFile =>
        setActiveFileId (Some (UploadedFile.id firstFile))
          (setActiveDocument (Some (UploadedFile.name firstFile))
             (setSelectedFiles [UploadedFile.id firstFile] st))
    | None => st
    end
  else st.

Definition handleFileSelect (fileId : string) (selected : bool)
    (st : State) : State :=
  if selected then
    setSelectedFiles (selectedFiles st ++ [fileId])%list st
  else
    setSelectedFiles
      (filter (fun id => negb (String.eqb id fileId)) (selectedFiles st))
      st.

Definition handleFileClick (file : UploadedFile.t) (st : State) : State :=
  let st1 := setActiveFileId (Some (UploadedFile.id file))
               (setActiveDocument (Some (UploadedFile.name file)) st) in
  if negb (UploadModal.arrayIncludes (selectedFiles st)
             (UploadedFile.id file))
  then setSelectedFiles (selectedFiles st1 ++ [UploadedFile.id file])%list
         st1
  else st1.

(** What the continuation of [sendMessage] after its [await] keeps from
    the render that created the handler. *)
Record Closure := mkClosure { closure_conversationId : option string }.

(** [sendMessage] up to its [await]: [None] when it returns at once,
    otherwise the state with the user message appended, the request
    handed to the chat operation and the closure of the continuation.
    [now] is [Date.now()], [date] is [new Date()]. *)
Definition sendMessage_call (st : State) (now date : N) (text : string)
  : option (State * ChatRequest.t * Closure) :=
  if negb (JS.truthy (JS.trim text)) then None
  else
    let userMessage :=
      Message.mk (JS.toString now) (JS.trim text) user date
        (JS.orUndefined (conversationId st)) in
    let st1 :=
      setInputText ""
        (setMessages (messages st ++ [userMessage])%list st) in
    Some (st1,
          ChatRequest.mk (JS.trim text)
            (JS.orUndefined (activeFileId st))
            (JS.orUndefined (conversationId st)),
          mkClosure (conversationId st)).

(** [sendMessage] from the settlement of the chat operation on: [st] is
    the state at that moment, [c] the closure of the call. *)
Definition sendMessage_settled (c : Closure)
    (result : JS.Settled ChatResponse.t) (now date : N) (st : State)
  : State :=
  match result with
  | JS.Fulfilled response =>
      let st1 :=
        if JS.falsy (closure_conversationId c)
           && negb (JS.falsy (ChatResponse.conversation_id response))
        then setConversationId (ChatResponse.conversation_id response) st
        else st in
      let aiMessage :=
        Message.mk
          (JS.orElse (ChatResponse.message_id response)
             (JS.toString (now + 1)))
          (JS.orElse (ChatResponse.response response)
             "I received your message.")
          ai date (ChatResponse.conversation_id response) in
      setMessages (messages st1 ++ [aiMessage])%list st1
  | JS.Rejected error =>
      let errorMessage :=
        Message.mk (JS.toString (now + 1))
          ("Sorry, I encountered an error: "
           ++ JS.orElse (JS.message error) "Please try again.")
          ai date None in
      setMessages (messages st ++ [errorMessage])%list st
  end.

(** One call of [sendMessage] that settles before anything else
    happens. *)
Definition sendMessage (st : State) (text : string) (now date : N)
    (result : JS.Settled ChatResponse.t) (now' date' : N) : State :=
  match sendMessage_call st now date text with
  | None => st
  | Some (st1, _, c) => sendMessage_settled c result now' date' st1
  end.

(** *** Sessions: calls of [sendMessage] and their settlements, in the
    order the event loop runs them *)

Inductive Event :=
| Send (text : string) (now date : N)
| Settle (call : nat) (result : JS.Settled ChatResponse.t) (now date : N).

Record Session := mkSession {
  page : State;
  (** closures of the calls made so far; [None] once settled *)
  inflight : list (option Closure);
  (** requests handed to the chat operation so far *)
  outbox : list ChatRequest.t
}.

Definition start : Session := mkSession initial [] [].

Fixpoint settleAt (k : nat) (calls : list (option Closure))
  : option Closure * list (option Closure) :=
  match calls, k with
  | [], _ => (None, [])
  | c :: rest, O => (c, None :: rest)
  | c :: rest, S k' =>
      let '(found, rest') := settleAt k' rest in (found, c :: rest')
  end.

Definition step (s : Session) (e : Event) : Session :=
  match e with
  | Send text now date =>
      match sendMessage_call (page s) now date text with
      | None => s
      | Some (st1, request, c) =>
          mkSession st1 (inflight s ++ [Some c])%list
            (outbox s ++ [request])%list
      end
  | Settle k result now date =>
      match settleAt k (inflight s) with
      | (Some c, calls') =>
          mkSession (sendMessage_settled c result now date (page s))
            calls' (outbox s)
      | (None, _) => s
      end
  end.

Definition run (s : Session) (events : list Event) : Session :=
  fold_left step events s.

End ChatPage.

(* ================================================================== *)
(** ** [ChatSection] with its own message state
       (the first of the two versions that follow [ChatPage]) *)
(* ================================================================== *)

Module ChatSectionOwnState.

Record State := mkState {
  messages : list Message.t;
  inputText : string;
  conversationId : option string
}.

Definition initial : State := mkState [] "" None.

Record Closure := mkClosure { closure_conversationId : option string }.

Section Handlers.

(** Prop [activeFileId]. *)
Variable activeFileId : option string.

Definition sendMessage_call (st : State) (now date : N) (text : string)
  : option (State * ChatRequest.t * Closure) :=
  if negb (JS.truthy (JS.trim text)) then None
  else
    let userMessage :=
      Message.mk (JS.toString now) (JS.trim text) user date
        (conversationId st) in
    Some (mkState (messages st ++ [userMessage])%list ""
            (conversationId st),
          ChatRequest.mk (JS.trim text)
            (JS.orUndefined activeFileId)
            (JS.orUndefined (conversationId st)),
          mkClosure (conversationId st)).

Definition sendMessage_settled (c : Closure)
    (result : JS.Settled ChatResponse.t) (now date : N) (st : State)
  : State :=
  match result with
  | JS.Fulfilled response =>
      let st1 :=
        if JS.falsy (closure_conversationId c)
           && negb (JS.falsy (ChatResponse.conversation_id response))
        then mkState (messages st) (inputText st)
               (ChatResponse.conversation_id response)
        else st in
      let aiMessage :=
        Message.mk
          (JS.orElse (ChatResponse.message_id response)
             (JS.toString (now + 1)))
          (JS.orElse (ChatResponse.response response)
             "I received your message.")
          ai date (ChatResponse.conversation_id response) in
      mkState (messages st1 ++ [aiMessage])%list (inputText st1)
        (conversationId st1)
  | JS.Rejected error =>
      mkState
        (messages st
         ++ [Message.mk (JS.toString (now + 1))
               ("Error: "
                ++ JS.orElse (JS.message error) "Please try again.")
               ai date None])%list
        (inputText st) (conversationId st)
  end.

End Handlers.

End ChatSectionOwnState.

(* ================================================================== *)
(** ** [ChatSection] taking messages and [sendMessage] as optional props
       (the second version); [internalSendMessage] is what it runs when
       the [sendMessage] prop is absent *)
(* ================================================================== *)

Module ChatSection.

Record State := mkState {
  internalMessages : list Message.t;
  internalInputText : string;
  conversationId : option string
}.

Definition initial : State := mkState [] "" None.

Record Closure := mkClosure { closure_conversationId : option string }.

Section Handlers.

(** Prop [activeFileId], and whether the prop [onConversationIdChange]
    is given. *)
Variable activeFileId : option string.
Variable hasOnConversationIdChange : bool.

Definition internalSendMessage_call (st : State) (now date : N)
    (text : string) : option (State * ChatRequest.t * Closure) :=
  if negb (JS.truthy (JS.trim text)) then None
  else
    let userMessage :=
      Message.mk (JS.toString now) (JS.trim text) user date
        (conversationId st) in
    Some (mkState (internalMessages st ++ [userMessage])%list ""
            (conversationId st),
          ChatRequest.mk (JS.trim text)
            (JS.orUndefined activeFileId)
            (JS.orUndefined (conversationId st)),
          mkClosure (conversationId st)).

(** The new state and the arguments of the calls of
    [onConversationIdChange] made by the handler. *)
Definition internalSendMessage_settled (c : Closure)
    (result : JS.Settled ChatResponse.t) (now date : N) (st : State)
  : State * list (option string) :=
  match result with
  | JS.Fulfilled response =>
      let adopt :=
        JS.falsy (closure_conversationId c)
        && negb (JS.falsy (ChatResponse.conversation_id response)) in
      let st1 :=
        if adopt
        then mkState (internalMessages st) (internalInputText st)
               (ChatResponse.conversation_id response)
        else st in
      let aiMessage :=
        Message.mk
          (JS.orElse (ChatResponse.message_id response)
             (JS.toString (now + 1)))
          (JS.orElse (ChatResponse.response response)
             "I received your message.")
          ai date (ChatResponse.conversation_id response) in
      (mkState (internalMessages st1 ++ [aiMessage])%list
         (internalInputText st1) (conversationId st1),
       if adopt && hasOnConversationIdChange
       then [ChatResponse.conversation_id response] else [])
  | JS.Rejected error =>
      let errorMessage :=
        Message.mk (JS.toString (now + 1))
          ("Sorry, I encountered an error: "
           ++ JS.orElse (JS.message error) "Please try again.")
          ai date None in
      (mkState (internalMessages st ++ [errorMessage])%list
         (internalInputText st) (conversationId st),
       [])
  end.

End Handlers.

End ChatSection.

(* ================================================================== *)
(** ** The upload dialog as [ChatPage] mounts it *)
(* ================================================================== *)

Module App.

(** [<UploadModal onFilesUploaded={handleFilesUploaded}
      currentFileCount={uploadedFiles.length} />]: one click on the
    upload button, with the upload and listing operations settling as
    [mutateAsync] and [refetch] say. *)
Definition upload
    (mutateAsync : UploadModal.File -> JS.Settled unit)
    (refetch : JS.Settled (list UploadedFile.t))
    (pg : ChatPage.State) (modal : UploadModal.State)
  : ChatPage.State * UploadModal.State :=
  (if (List.length (UploadModal.selectedFiles modal) =? 0)%nat then pg
   else fst (ChatPage.handleFilesUploaded mutateAsync refetch
               (UploadModal.selectedFiles modal) pg),
   UploadModal.handleUpload
     (fun files =>
        snd (ChatPage.handleFilesUploaded mutateAsync refetch files pg))
     modal).

End App.

(* ================================================================== *)
(** ** UploadModal: the drop zone, the file input and the dialog as a
       whole *)
(* ================================================================== *)

Module UploadModalEvents.

(** [dragActive] beside the staged files and the errors. *)
Record State := mkState {
  dragActive : bool;
  staging : UploadModal.State
}.

Definition initial : State := mkState false UploadModal.initial.

(** [handleDrag], by [e.type]. *)
Definition handleDrag (type : string) (st : State) : State :=
  if String.eqb type "dragenter" || String.eqb type "dragover" then
    mkState true (staging st)
  else if String.eqb type "dragleave" then
    mkState false (staging st)
  else st.

(** [handleDrop]; [files] is [e.dataTransfer.files], which may be
    missing. *)
Definition handleDrop (currentFileCount : nat)
    (files : option (list UploadModal.File)) (st : State) : State :=
  match files with
  | Some fs =>
      if (0 <? List.length fs)%nat
      then mkState false
             (UploadModal.handleFiles currentFileCount (staging st) fs)
      else mkState false (staging st)
  | None => mkState false (staging st)
  end.

(** [handleFileInput]; [files] is [e.target.files]. *)
Definition handleFileInput (currentFileCount : nat)
    (files : option (list UploadModal.File)) (st : State) : State :=
  match files with
  | Some fs =>
      if (0 <? List.length fs)%nat
      then mkState (dragActive st)
             (UploadModal.handleFiles currentFileCount (staging st) fs)
      else st
  | None => st
  end.

(** What can happen to the dialog: the events its markup wires to the
    handlers.  [Upload] carries the settlement of [onFilesUploaded]. *)
Inductive Event :=
| Drag (type : string)
| Drop (files : option (list UploadModal.File))
| FileInput (files : option (list UploadModal.File))
| RemoveFile (index : Z)
| ClearAllErrors
| Upload (onFilesUploaded : list UploadModal.File -> JS.Settled unit).

(** One event, with the value of the prop [currentFileCount] at that
    time. *)
Definition step (st : State) (ce : nat * Event) : JS.Completion State :=
  let '(currentFileCount, e) := ce in
  match e with
  | Drag type => JS.Normal (handleDrag type st)
  | Drop files => JS.Normal (handleDrop currentFileCount files st)
  | FileInput files => JS.Normal (handleFileInput currentFileCount files st)
  | RemoveFile index =>
      staging' <- UploadModal.removeFile (staging st) index ;;
      JS.Normal (mkState (dragActive st) staging')
  | ClearAllErrors =>
      JS.Normal (mkState (dragActive st)
                   (UploadModal.clearAllErrors (staging st)))
  | Upload onFilesUploaded =>
      JS.Normal (mkState (dragActive st)
                   (UploadModal.handleUpload onFilesUploaded (staging st)))
  end.

Fixpoint run (st : State) (events : list (nat * Event))
  : JS.Completion State :=
  match events with
  | [] => JS.Normal st
  | ce :: rest => st' <- step st ce ;; run st' rest
  end.

End UploadModalEvents.

(* ================================================================== *)
(** ** ChatPage: the listing, the dialog effect and the title *)
(* ================================================================== *)

(** Modelled from the spec: a stored file descriptor of the listing
    operation of [hooks/api],
    [{ file_id, filename, file_size, content_type, uploaded_at }]. *)
Module FileDescriptor.
Record t := mk {
  file_id : string;
  filename : string;
  file_size : N;
  content_type : string;
  uploaded_at : string
}.
End FileDescriptor.

Module ChatPageListing.

Section Listing.

(** [new Date(s)] for the date strings of the listing. *)
Variable parseDate : string -> N.

(** [filesData?.files?.map(...) || []]: [filesData] and its [files] may
    each be missing. *)
Definition uploadedFiles
    (filesData : option (option (list FileDescriptor.t)))
  : list UploadedFile.t :=
  match filesData with
  | Some (Some files) =>
      map (fun file =>
             UploadedFile.mk (FileDescriptor.file_id file)
               (FileDescriptor.filename file)
               (FileDescriptor.file_size file)
               (FileDescriptor.content_type file)
               (parseDate (FileDescriptor.uploaded_at file)))
        files
  | _ => []
  end.

End Listing.

(** The effect with dependencies [isLoading, uploadedFiles.length]. *)
Definition openWhenEmpty (isLoading : bool) (st : ChatPage.State)
  : ChatPage.State :=
  if negb isLoading && (List.length (ChatPage.uploadedFiles st) =? 0)%nat
  then ChatPage.setShowUploadModal true st
  else st.

(** [onClose] of the dialog. *)
Definition onClose (st : ChatPage.State) : ChatPage.State :=
  ChatPage.setShowUploadModal false st.

End ChatPageListing.

Module ChatSectionView.

(** One code unit against a letter, ignoring case. *)
Definition eqIgnoreCase (c lower upper : ascii) : bool :=
  Ascii.eqb c lower || Ascii.eqb c upper.

(** The whole string matches [/\.pdf$/i] from its first code unit. *)
Definition isPdfSuffix (s : string) : bool :=
  match s with
  | String c0 (String c1 (String c2 (String c3 EmptyString))) =>
      Ascii.eqb c0 "."
      && eqIgnoreCase c1 "p" "P"
      && eqIgnoreCase c2 "d" "D"
      && eqIgnoreCase c3 "f" "F"
  | _ => false
  end.

(** [s.replace(/\.pdf$/i, "")] *)
Fixpoint dropPdfSuffix (s : string) : string :=
  if isPdfSuffix s then EmptyString
  else
    match s with
    | EmptyString => EmptyString
    | String c s' => String c (dropPdfSuffix s')
    end.

Definition titleDisplay (activeDocument : option string) : string :=
  match JS.orUndefined activeDocument with
  | Some name => dropPdfSuffix name
  | None => "Document Analysis"
  end.

(** The [disabled] of the submit button is the negation of this. *)
Definition canSubmit (inputText : string) (isLoading : bool) : bool :=
  negb (negb (JS.truthy (JS.trim inputText)) || isLoading).

End ChatSectionView.


(* ================================================================== *)
(** ** Notions used in the statements *)
(* ================================================================== *)

(** The index designates an entry of the staged list. *)
Definition inRange (st : UploadModal.State) (index : Z) : Prop :=
  (0 <= index < Z.of_nat (List.length (UploadModal.selectedFiles st)))%Z.

Definition staged_two : UploadModal.State :=
  {| UploadModal.selectedFiles :=
       [UploadModal.mkFile "a.pdf" "application/pdf" 100;
        UploadModal.mkFile "b.pdf" "application/pdf" 200];
     UploadModal.errors :=
       ["a.pdf: File already selected"; "c.txt: Only PDF files are supported"]
  |}.


(** The same four checks with the staged-name check first. *)
Definition amended_verdict (currentFileCount : nat) (st : UploadModal.State)
    (file : UploadModal.File) : option string :=
  if UploadModal.arrayIncludes
       (map UploadModal.name (UploadModal.selectedFiles st))
       (UploadModal.name file) then
    Some (UploadModal.name file ++ ": File already selected")
  else if negb (String.eqb (UploadModal.type file) "application/pdf") then
    Some (UploadModal.name file ++ ": Only PDF files are supported")
  else if (10485760 <? UploadModal.size file)%N then
    Some (UploadModal.name file ++ ": File size must be under 10MB")
  else if (50 <=? currentFileCount
                  + List.length (UploadModal.selectedFiles st))%nat then
    Some "Cannot exceed 50 files total"
  else None.

Definition rejections (verdict : UploadModal.File -> option string)
    (batch : list UploadModal.File) : list string :=
  flat_map (fun f => match verdict f with Some e => [e] | None => [] end)
    batch.

Definition acceptances (verdict : UploadModal.File -> option string)
    (batch : list UploadModal.File) : list UploadModal.File :=
  filter (fun f => match verdict f with Some _ => false | None => true end)
    batch.

(** The entries of an error list that include a given name. *)
Definition mentioning (n : string) (errors : list string) : list string :=
  filter (fun e => JS.includes e n) errors.

Definition named (n : string) (files : list UploadModal.File)
  : list UploadModal.File :=
  filter (fun f => String.eqb (UploadModal.name f) n) files.

Definition staged_a : UploadModal.State :=
  {| UploadModal.selectedFiles :=
       [UploadModal.mkFile "a.pdf" "application/pdf" 100];
     UploadModal.errors := [] |}.

(** A candidate named like a staged file, and not a PDF. *)
Definition text_a : UploadModal.File :=
  UploadModal.mkFile "a.pdf" "text/plain" 100.

Definition pdf_a : UploadModal.File :=
  UploadModal.mkFile "a.pdf" "application/pdf" 100.

(** An upload operation that rejects every file. *)
Definition failingUpload (_ : UploadModal.File) : JS.Settled unit :=
  JS.Rejected (JS.mkError (Some "Network Error")).

(** The page while the dialog is open, nothing stored yet. *)
Definition page_open : ChatPage.State :=
  ChatPage.setShowUploadModal true ChatPage.initial.

(** A sequence of calls of [sendMessage], each settling before the next
    is made: the text, the two clock readings of the call, the settlement
    of the chat operation and the two clock readings at the settlement. *)
Definition Exchange : Type :=
  (string * N * N * JS.Settled ChatResponse.t * N * N)%type.

Definition exchange (st : ChatPage.State) (x : Exchange) : ChatPage.State :=
  let '(text, now, date, result, now', date') := x in
  ChatPage.sendMessage st text now date result now' date'.

Definition exchanges (st : ChatPage.State) (xs : list Exchange)
  : ChatPage.State :=
  fold_left exchange xs st.

(** A response whose message id is present and empty. *)
Definition response_empty_id : ChatResponse.t :=
  ChatResponse.mk (Some "hi") (Some "") (Some "c1").

Definition response_c1 : ChatResponse.t :=
  ChatResponse.mk (Some "hi") (Some "m1") (Some "c1").

Definition response_c2 : ChatResponse.t :=
  ChatResponse.mk (Some "hello again") (Some "m2") (Some "c2").

(** Two calls made before either settles, then the first settlement. *)
Definition overlapping : list ChatPage.Event :=
  [ChatPage.Send "What are the key risks?" 1000 1000;
   ChatPage.Send "Any hidden fees?" 1001 1001;
   ChatPage.Settle 0 (JS.Fulfilled response_c1) 2000 2000].

Definition listing_two : list UploadedFile.t :=
  [UploadedFile.mk "f1" "lease.pdf" 1000 "application/pdf" 1;
   UploadedFile.mk "f2" "nda.pdf" 2000 "application/pdf" 2].

(** A file that passes the type and size checks. *)
Definition wellFormed (f : UploadModal.File) : Prop :=
  UploadModal.type f = "application/pdf"
  /\ (UploadModal.size f <= 10485760)%N.

(** A candidate that passes every check against the state [st]. *)
Definition acceptable (currentFileCount : nat) (st : UploadModal.State)
    (f : UploadModal.File) : Prop :=
  ~ In (UploadModal.name f)
      (map UploadModal.name (UploadModal.selectedFiles st))
  /\ wellFormed f
  /\ currentFileCount + List.length (UploadModal.selectedFiles st) < 50.

Definition capacityMessage : string := "Cannot exceed 50 files total".

Definition fulfilled {A} (r : JS.Settled A) : Prop :=
  exists a, r = JS.Fulfilled a.

Definition isUser (m : Message.t) : bool :=
  match Message.sender m with user => true | ai => false end.

Definition isAi (m : Message.t) : bool :=
  match Message.sender m with user => false | ai => true end.

(** The calls of a session that have settled. *)
Definition settledCalls (calls : list (option ChatPage.Closure)) : nat :=
  List.length
    (filter (fun c => match c with None => true | Some _ => false end)
       calls).

(** The request a user message belongs to. *)
Definition requestOf (activeFileId : option string) (m : Message.t)
  : ChatRequest.t :=
  ChatRequest.mk (Message.text m) (JS.orUndefined activeFileId)
    (Message.conversation_id m).

(** The conversation id of the first exchange, in order, that is made
    with a text that is not blank and answered with a conversation id
    that is not empty. *)
Fixpoint firstConversationId (xs : list Exchange) : option string :=
  match xs with
  | [] => None
  | (text, _, _, result, _, _) :: rest =>
      if JS.truthy (JS.trim text) then
        match result with
        | JS.Fulfilled r =>
            match JS.orUndefined (ChatResponse.conversation_id r) with
            | Some id => Some id
            | None => firstConversationId rest
            end
        | JS.Rejected _ => firstConversationId rest
        end
      else firstConversationId rest
  end.

(** The part of the page state that the [ChatSection] versions keep
    themselves. *)
Definition ownView (st : ChatPage.State) : ChatSectionOwnState.State :=
  ChatSectionOwnState.mkState (ChatPage.messages st) (ChatPage.inputText st)
    (ChatPage.conversationId st).

Definition internalView (st : ChatPage.State) : ChatSection.State :=
  ChatSection.mkState (ChatPage.messages st) (ChatPage.inputText st)
    (ChatPage.conversationId st).

Definition allWhiteSpace (s : string) : Prop :=
  Forall (fun c => JS.isWhiteSpace c = true) (list_ascii_of_string s).

(** The books of a session balance: one request per call, the requests
    are those of the logged user messages in order, and the replies
    logged are as many as the calls settled. *)
Definition accounted (s : ChatPage.Session) : Prop :=
  List.length (ChatPage.inflight s) = List.length (ChatPage.outbox s)
  /\ ChatPage.outbox s
     = map (requestOf (ChatPage.activeFileId (ChatPage.page s)))
         (filter isUser (ChatPage.messages (ChatPage.page s)))
  /\ List.length (filter isAi (ChatPage.messages (ChatPage.page s)))
     = settledCalls (ChatPage.inflight s).

(** What the chat events have no business with. *)
Definition filesOf (st : ChatPage.State)
  : bool * list string * option string * option string
    * list UploadedFile.t :=
  (ChatPage.showUploadModal st, ChatPage.selectedFiles st,
   ChatPage.activeDocument st, ChatPage.activeFileId st,
   ChatPage.uploadedFiles st).

(** A blank text, a failed call, then two answered calls. *)
Definition four_exchanges : list Exchange :=
  [("  ", 1%N, 1%N, JS.Fulfilled response_c2, 2%N, 2%N);
   ("hello", 3%N, 3%N, JS.Rejected (JS.mkError None), 4%N, 4%N);
   ("hello", 5%N, 5%N, JS.Fulfilled response_c1, 6%N, 6%N);
   ("again", 7%N, 7%N, JS.Fulfilled response_c2, 8%N, 8%N)].

(* ================================================================== *)
(** ** Facts about the JavaScript operations *)
(* ================================================================== *)

Lemma startsWith_append (p s : string) : JS.startsWith (p ++ s) p = true.
Proof.
  induction p as [|a p IH]; simpl; [reflexivity|].
  now rewrite Ascii.eqb_refl, IH.
Qed.

Lemma includes_append (p s : string) : JS.includes (p ++ s) p = true.
Proof.
  destruct p as [|a p]; [now destruct s; simpl|].
  change (JS.includes (String a p ++ s) (String a p))
    with (JS.startsWith (String a p ++ s) (String a p)
          || JS.includes (p ++ s) (String a p)).
  now rewrite startsWith_append.
Qed.

Lemma truthy_append_r (s t : string) :
  JS.truthy t = true -> JS.truthy (s ++ t) = true.
Proof.
  destruct s; simpl; [trivial|reflexivity].
Qed.

Lemma truthy_spec (s : string) : JS.truthy s = true <-> s <> "".
Proof.
  unfold JS.truthy. destruct s; simpl; split; congruence.
Qed.

Lemma toString_truthy (n : N) : JS.truthy (JS.toString n) = true.
Proof.
  unfold JS.toString.
  assert (H : N.to_uint n <> Decimal.Nil).
  { destruct n; simpl; [discriminate|apply Unsigned.to_uint_nonnil]. }
  destruct (N.to_uint n); [congruence | reflexivity ..].
Qed.

Lemma orElse_some (s d : string) :
  JS.truthy s = true -> JS.orElse (Some s) d = s.
Proof. unfold JS.orElse, JS.orUndefined. now intros ->. Qed.

Lemma orElse_empty (d : string) : JS.orElse (Some "") d = d.
Proof. reflexivity. Qed.

Lemma orElse_none (d : string) : JS.orElse None d = d.
Proof. reflexivity. Qed.

Lemma filterC_total {A} (p : A -> bool) (xs : list A) :
  JS.filterC (fun x => JS.Normal (p x)) xs = JS.Normal (filter p xs).
Proof.
  induction xs as [|x xs IH]; simpl; [reflexivity|].
  rewrite IH. simpl. now destruct (p x).
Qed.

Lemma filterC_throws {A} (e : JS.Error) (k : string -> JS.Completion bool)
    (xs : list A) :
  xs <> [] ->
  JS.filterC (fun _ => JS.bind (JS.Thrown e) k) xs = JS.Thrown e.
Proof. destruct xs; [congruence|reflexivity]. Qed.

Lemma index_in_range {A} (xs : list A) (i : Z) :
  (0 <= i < Z.of_nat (List.length xs))%Z ->
  exists x, JS.index xs i = Some x /\ nth_error xs (Z.to_nat i) = Some x.
Proof.
  intros H. unfold JS.index.
  destruct (0 <=? i)%Z eqn:E; [|lia].
  destruct (nth_error xs (Z.to_nat i)) eqn:N; [eauto|].
  apply nth_error_None in N. lia.
Qed.

Lemma index_out_of_range {A} (xs : list A) (i : Z) :
  ~ (0 <= i < Z.of_nat (List.length xs))%Z -> JS.index xs i = None.
Proof.
  intros H. unfold JS.index.
  destruct (0 <=? i)%Z eqn:E; [|reflexivity].
  apply nth_error_None. lia.
Qed.

Lemma filteri_from_keep {A} (xs : list A) (b i : Z) :
  (i < b)%Z \/ (b + Z.of_nat (List.length xs) <= i)%Z ->
  JS.filteri_from (fun _ j => negb (j =? i)%Z) b xs = xs.
Proof.
  revert b. induction xs as [|x xs IH]; intros b H; simpl; [reflexivity|].
  simpl in H.
  destruct (Z.eqb_spec b i) as [E|E]; [lia|]. simpl. f_equal. apply IH. lia.
Qed.

Lemma filteri_from_drop {A} (xs : list A) (b i : Z) :
  (b <= i)%Z ->
  JS.filteri_from (fun _ j => negb (j =? i)%Z) b xs
  = (firstn (Z.to_nat (i - b)) xs ++ skipn (S (Z.to_nat (i - b))) xs)%list.
Proof.
  revert b. induction xs as [|x xs IH]; intros b Hb; simpl.
  - now rewrite firstn_nil.
  - destruct (Z.eqb_spec b i) as [E|E]; simpl.
    + subst b. rewrite Z.sub_diag. simpl.
      apply filteri_from_keep. lia.
    + rewrite IH by lia.
      replace (Z.to_nat (i - b)) with (S (Z.to_nat (i - (b + 1)))) by lia.
      reflexivity.
Qed.

(* ================================================================== *)
(** ** UploadModal: removing a staged file *)
(* ================================================================== *)


Lemma removeFile_defined (st : UploadModal.State) (index : Z)
    (removed : UploadModal.File) :
  JS.index (UploadModal.selectedFiles st) index = Some removed ->
  UploadModal.removeFile st index
  = JS.Normal
      {| UploadModal.selectedFiles :=
           JS.filteri (fun _ i => negb (i =? index)%Z)
             (UploadModal.selectedFiles st);
         UploadModal.errors :=
           filter (fun e => negb (JS.includes e (UploadModal.name removed)))
             (UploadModal.errors st) |}.
Proof.
  intros H. unfold UploadModal.removeFile. rewrite H. simpl.
  now rewrite filterC_total.
Qed.

Lemma removeFile_undefined (st : UploadModal.State) (index : Z) :
  JS.index (UploadModal.selectedFiles st) index = None ->
  UploadModal.removeFile st index
  = match UploadModal.errors st with
    | [] => JS.Normal st
    | _ :: _ => JS.Thrown JS.typeError
    end.
Proof.
  intros H. unfold UploadModal.removeFile. rewrite H.
  assert (K : JS.filteri (fun _ i => negb (i =? index)%Z)
                (UploadModal.selectedFiles st)
              = UploadModal.selectedFiles st).
  { apply filteri_from_keep. unfold JS.index in H.
    destruct (Z.leb_spec 0 index) as [P|P]; [|lia].
    apply nth_error_None in H. lia. }
  rewrite K. destruct st as [files [|e es]]; reflexivity.
Qed.




(** C10, as stated, fails: with no error entries the callback that reads
    [removedFile.name] never runs, so an index outside the staged list
    completes without a failed read. *)
Lemma removeFile_out_of_range_completes :
  ~ inRange UploadModal.initial 0
  /\ UploadModal.removeFile UploadModal.initial 0
     = JS.Normal UploadModal.initial.
Proof.
  split; [unfold inRange; simpl; lia | reflexivity].
Qed.

(** C10, amended. [removeFile] reads [selectedFiles[index]] without a
    bounds check and reads its name once per error entry: the call throws
    exactly when the index is outside the staged list and the error list
    is not empty; inside the staged list it always completes, and outside
    it with no error entries it completes and leaves the state as it
    was. *)
Theorem removeFile_throws_iff (st : UploadModal.State) (index : Z) :
  ((exists e, UploadModal.removeFile st index = JS.Thrown e)
   <-> ~ inRange st index /\ UploadModal.errors st <> [])
  /\ (inRange st index ->
      exists st', UploadModal.removeFile st index = JS.Normal st')
  /\ (~ inRange st index -> UploadModal.errors st = [] ->
      UploadModal.removeFile st index = JS.Normal st)
  /\ (~ inRange st index -> UploadModal.errors st <> [] ->
      UploadModal.removeFile st index = JS.Thrown JS.typeError).
Proof.
  assert (In_ok : inRange st index ->
            exists st', UploadModal.removeFile st index = JS.Normal st').
  { intros H. destruct (index_in_range _ _ H) as (removed & Hi & _).
    eexists. apply removeFile_defined. exact Hi. }
  assert (Out : ~ inRange st index ->
            UploadModal.removeFile st index
            = match UploadModal.errors st with
              | [] => JS.Normal st
              | _ :: _ => JS.Thrown JS.typeError
              end).
  { intros H. apply removeFile_undefined. now apply index_out_of_range. }
  split; [split|split; [exact In_ok|split]].
  - intros [e He]. split.
    + intros H. destruct (In_ok H) as [st' Hs]. congruence.
    + intros Hnil. destruct (Z_le_dec 0 index) as [P|P].
      * destruct (Z_lt_dec index
                    (Z.of_nat (List.length (UploadModal.selectedFiles st))))
          as [Q|Q].
        -- destruct (In_ok (conj P Q)) as [st' Hs]. congruence.
        -- rewrite Out in He by (unfold inRange; lia).
           rewrite Hnil in He. discriminate.
      * rewrite Out in He by (unfold inRange; lia).
        rewrite Hnil in He. discriminate.
  - intros [H Hne]. exists JS.typeError. rewrite (Out H).
    destruct (UploadModal.errors st); congruence.
  - intros H Hnil. rewrite (Out H). now rewrite Hnil.
  - intros H Hne. rewrite (Out H).
    destruct (UploadModal.errors st); congruence.
Qed.

Lemma removeFile_throws_iff_witness :
  UploadModal.removeFile
    {| UploadModal.selectedFiles := [];
       UploadModal.errors := ["Cannot exceed 50 files total"] |} 3
  = JS.Thrown JS.typeError.
Proof.
  apply (removeFile_throws_iff
           {| UploadModal.selectedFiles := [];
              UploadModal.errors := ["Cannot exceed 50 files total"] |} 3).
  - unfold inRange; simpl; lia.
  - simpl; discriminate.
Defined.

(* ================================================================== *)
(** ** UploadModal: validating and staging a batch *)
(* ================================================================== *)

Lemma handleFile_verdict (count : nat) (st : UploadModal.State)
    (newErrors : list string) (validFiles : list UploadModal.File)
    (file : UploadModal.File) :
  UploadModal.handleFile count st
    (map UploadModal.name (UploadModal.selectedFiles st))
    (newErrors, validFiles) file
  = match amended_verdict count st file with
    | Some e => ((newErrors ++ [e])%list, validFiles)
    | None => (newErrors, (validFiles ++ [file])%list)
    end.
Proof.
  unfold UploadModal.handleFile, amended_verdict, UploadModal.validateFile.
  destruct (UploadModal.arrayIncludes _ (UploadModal.name file));
    [reflexivity|].
  change (UploadModal.arrayIncludes UploadModal.ACCEPTED_TYPES
            (UploadModal.type file))
    with (String.eqb (UploadModal.type file) "application/pdf" || false).
  rewrite orb_false_r.
  destruct (String.eqb (UploadModal.type file) "application/pdf");
    cbn [negb].
  2:{ unfold JS.orUndefined. now rewrite truthy_append_r. }
  change UploadModal.MAX_FILE_SIZE with 10485760%N.
  destruct (10485760 <? UploadModal.size file)%N.
  { unfold JS.orUndefined. now rewrite truthy_append_r. }
  change UploadModal.MAX_FILES with 50%nat.
  destruct (50 <=? count + List.length (UploadModal.selectedFiles st))%nat;
    reflexivity.
Qed.

Lemma fold_handleFile (count : nat) (st : UploadModal.State)
    (batch : list UploadModal.File) :
  forall newErrors validFiles,
    fold_left
      (UploadModal.handleFile count st
         (map UploadModal.name (UploadModal.selectedFiles st)))
      batch (newErrors, validFiles)
    = ((newErrors ++ rejections (amended_verdict count st) batch)%list,
       (validFiles ++ acceptances (amended_verdict count st) batch)%list).
Proof.
  induction batch as [|f batch IH]; intros newErrors validFiles.
  - cbn. now rewrite !app_nil_r.
  - cbn [fold_left]. rewrite handleFile_verdict.
    unfold rejections, acceptances. cbn [flat_map filter].
    destruct (amended_verdict count st f) as [e|]; rewrite IH;
      unfold rejections, acceptances; now rewrite <- app_assoc.
Qed.

Lemma scanFiles_verdict (count : nat) (st : UploadModal.State)
    (batch : list UploadModal.File) :
  UploadModal.scanFiles count st batch
  = (rejections (amended_verdict count st) batch,
     acceptances (amended_verdict count st) batch).
Proof. unfold UploadModal.scanFiles. now rewrite fold_handleFile. Qed.

Lemma handleFiles_verdict (count : nat) (st : UploadModal.State)
    (batch : list UploadModal.File) :
  UploadModal.handleFiles count st batch
  = {| UploadModal.selectedFiles :=
         (UploadModal.selectedFiles st
          ++ acceptances (amended_verdict count st) batch)%list;
       UploadModal.errors :=
         (filter (UploadModal.keepsError batch) (UploadModal.errors st)
          ++ rejections (amended_verdict count st) batch)%list |}.
Proof.
  unfold UploadModal.handleFiles. now rewrite scanFiles_verdict.
Qed.

Lemma arrayIncludes_In (xs : list string) (x : string) :
  UploadModal.arrayIncludes xs x = true <-> In x xs.
Proof.
  unfold UploadModal.arrayIncludes. rewrite existsb_exists. split.
  - intros (y & Hy & E). apply String.eqb_eq in E. now subst.
  - intros H. exists x. split; [exact H|apply String.eqb_refl].
Qed.

Lemma amended_verdict_duplicate (count : nat) (st : UploadModal.State)
    (file : UploadModal.File) :
  In (UploadModal.name file)
    (map UploadModal.name (UploadModal.selectedFiles st)) ->
  amended_verdict count st file
  = Some (UploadModal.name file ++ ": File already selected").
Proof.
  intros H. apply arrayIncludes_In in H. unfold amended_verdict.
  now rewrite H.
Qed.

Lemma amended_verdict_accepts (count : nat) (st : UploadModal.State)
    (file : UploadModal.File) :
  amended_verdict count st file = None
  <-> ~ In (UploadModal.name file)
          (map UploadModal.name (UploadModal.selectedFiles st))
      /\ UploadModal.type file = "application/pdf"
      /\ (UploadModal.size file <= 10485760)%N
      /\ count + List.length (UploadModal.selectedFiles st) < 50.
Proof.
  unfold amended_verdict.
  destruct (UploadModal.arrayIncludes _ (UploadModal.name file)) eqn:D.
  { apply arrayIncludes_In in D. split; [discriminate|tauto]. }
  assert (ND : ~ In (UploadModal.name file)
                 (map UploadModal.name (UploadModal.selectedFiles st))).
  { intros H. apply arrayIncludes_In in H. congruence. }
  destruct (String.eqb_spec (UploadModal.type file) "application/pdf")
    as [T|T]; cbn [negb]; [|split; [discriminate|tauto]].
  destruct (N.ltb_spec 10485760 (UploadModal.size file)) as [Z|Z].
  { split; [discriminate|]. intros (_ & _ & H & _). lia. }
  destruct (Nat.leb_spec 50
              (count + List.length (UploadModal.selectedFiles st)))
    as [C|C].
  { split; [discriminate|]. intros (_ & _ & _ & H). lia. }
  split; [intros _|reflexivity]. repeat split; assumption || lia.
Qed.

Lemma keepsError_mentioned (batch : list UploadModal.File) (n e : string) :
  In n (map UploadModal.name batch) ->
  JS.includes e n = true ->
  UploadModal.keepsError batch e = false.
Proof.
  intros Hn He. unfold UploadModal.keepsError. apply negb_false_iff.
  apply existsb_exists. apply in_map_iff in Hn.
  destruct Hn as (f & Hf & Hin). exists f. split; [exact Hin|].
  now rewrite Hf.
Qed.

Lemma mentioning_kept (batch : list UploadModal.File) (n : string)
    (errors : list string) :
  In n (map UploadModal.name batch) ->
  mentioning n (filter (UploadModal.keepsError batch) errors) = [].
Proof.
  intros Hn. unfold mentioning.
  induction errors as [|e es IH]; [reflexivity|]. cbn [filter].
  destruct (UploadModal.keepsError batch e) eqn:K; [|exact IH].
  cbn [filter]. destruct (JS.includes e n) eqn:I; [|exact IH].
  rewrite (keepsError_mentioned batch n e Hn I) in K. discriminate.
Qed.

Lemma mentioning_app (n : string) (xs ys : list string) :
  mentioning n (xs ++ ys) = (mentioning n xs ++ mentioning n ys)%list.
Proof. apply filter_app. Qed.

Lemma named_absent (n : string) (files : list UploadModal.File) :
  ~ In n (map UploadModal.name files) -> named n files = [].
Proof.
  unfold named. induction files as [|f fs IH]; [reflexivity|].
  cbn [map In filter]. intros H.
  destruct (String.eqb_spec (UploadModal.name f) n) as [E|E]; [tauto|].
  apply IH. tauto.
Qed.



(** C6. Validating a batch replaces the error entries of its names: for
    a name of a file in the batch, the entries that include the name
    afterwards are exactly those the batch itself produced, whatever
    entries included it before.  And a file that passes validation,
    staged in one batch and offered again under the same name in a later
    batch, is staged once, with one entry "<name>: File already selected"
    as the only error entry that includes its name. *)
Theorem handleFiles_replaces_errors :
  (forall (count : nat) (st : UploadModal.State)
          (batch : list UploadModal.File) (n : string),
      In n (map UploadModal.name batch) ->
      mentioning n (UploadModal.errors (UploadModal.handleFiles count st batch))
      = mentioning n (fst (UploadModal.scanFiles count st batch)))
  /\ (forall (count count' : nat) (st : UploadModal.State)
             (f1 f2 : UploadModal.File) (n : string),
         UploadModal.name f1 = n ->
         UploadModal.name f2 = n ->
         ~ In n (map UploadModal.name (UploadModal.selectedFiles st)) ->
         UploadModal.type f1 = "application/pdf" ->
         (UploadModal.size f1 <= 10485760)%N ->
         count + List.length (UploadModal.selectedFiles st) < 50 ->
         let st1 := UploadModal.handleFiles count st [f1] in
         let st2 := UploadModal.handleFiles count' st1 [f2] in
         named n (UploadModal.selectedFiles st2) = [f1]
         /\ mentioning n (UploadModal.errors st2)
            = [n ++ ": File already selected"]).
Proof.
  split.
  - intros count st batch n Hn. unfold UploadModal.handleFiles.
    destruct (UploadModal.scanFiles count st batch) as [newErrors validFiles].
    cbn [UploadModal.errors fst].
    now rewrite mentioning_app, mentioning_kept.
  - intros count count' st f1 f2 n N1 N2 Fresh T Z C st1 st2.
    assert (A1 : amended_verdict count st f1 = None).
    { apply amended_verdict_accepts. rewrite N1. auto. }
    assert (S1 : st1 = {| UploadModal.selectedFiles :=
                            (UploadModal.selectedFiles st ++ [f1])%list;
                          UploadModal.errors :=
                            filter (UploadModal.keepsError [f1])
                              (UploadModal.errors st) |}).
    { unfold st1. rewrite handleFiles_verdict.
      unfold acceptances, rejections. cbn [filter flat_map].
      rewrite A1. cbn [app]. now rewrite app_nil_r. }
    assert (A2 : amended_verdict count' st1 f2
                 = Some (n ++ ": File already selected")).
    { rewrite <- N2 at 1. apply amended_verdict_duplicate.
      rewrite S1. cbn [UploadModal.selectedFiles].
      rewrite map_app, in_app_iff. right. cbn. left. congruence. }
    unfold st2. rewrite handleFiles_verdict.
    unfold acceptances, rejections. cbn [filter flat_map].
    rewrite A2. cbn [app UploadModal.selectedFiles UploadModal.errors].
    split.
    + rewrite app_nil_r, S1. cbn [UploadModal.selectedFiles].
      unfold named. rewrite filter_app.
      fold (named n (UploadModal.selectedFiles st)).
      rewrite (named_absent n _ Fresh). cbn [filter app].
      rewrite N1. now rewrite String.eqb_refl.
    + rewrite mentioning_app, mentioning_kept
        by (cbn; left; exact N2).
      unfold mentioning. cbn [filter app].
      now rewrite includes_append.
Qed.

Lemma handleFiles_replaces_errors_witness :
  let st1 := UploadModal.handleFiles 0 UploadModal.initial [pdf_a] in
  let st2 := UploadModal.handleFiles 0 st1 [pdf_a] in
  named "a.pdf" (UploadModal.selectedFiles st2) = [pdf_a]
  /\ mentioning "a.pdf" (UploadModal.errors st2)
     = ["a.pdf: File already selected"].
Proof.
  apply (proj2 handleFiles_replaces_errors 0 0 UploadModal.initial
           pdf_a pdf_a "a.pdf").
  - reflexivity.
  - reflexivity.
  - simpl. tauto.
  - reflexivity.
  - vm_compute. discriminate.
  - simpl. lia.
Defined.

(** An entry that includes no name of the batch is not touched: the
    capacity message of one batch is still there after the next. *)
Remark capacity_message_kept :
  let st1 := UploadModal.handleFiles 50 UploadModal.initial [pdf_a] in
  let st2 := UploadModal.handleFiles 50 st1 [pdf_a] in
  UploadModal.errors st1 = ["Cannot exceed 50 files total"]
  /\ UploadModal.errors st2
     = ["Cannot exceed 50 files total"; "Cannot exceed 50 files total"]
  /\ mentioning "a.pdf" (UploadModal.errors st2) = [].
Proof. vm_compute. repeat split. Qed.

(* ================================================================== *)
(** ** Submitting the staged files *)
(* ================================================================== *)

Lemma handleFilesUploaded_fulfils
    (mutateAsync : UploadModal.File -> JS.Settled unit)
    (refetch : JS.Settled (list UploadedFile.t))
    (files : list UploadModal.File) (st : ChatPage.State) :
  snd (ChatPage.handleFilesUploaded mutateAsync refetch files st)
  = JS.Fulfilled tt.
Proof.
  unfold ChatPage.handleFilesUploaded.
  destruct (ChatPage.uploadAll mutateAsync files); [destruct refetch|];
    reflexivity.
Qed.

(** What [handleUpload] does when the promise of [onFilesUploaded] is
    rejected, and when it is fulfilled. *)
Lemma handleUpload_rejected (st : UploadModal.State) (e : JS.Error)
    (onFilesUploaded : list UploadModal.File -> JS.Settled unit) :
  UploadModal.selectedFiles st <> [] ->
  onFilesUploaded (UploadModal.selectedFiles st) = JS.Rejected e ->
  UploadModal.handleUpload onFilesUploaded st
  = {| UploadModal.selectedFiles := UploadModal.selectedFiles st;
       UploadModal.errors :=
         ["Upload failed: "
          ++ match JS.message e with
             | Some reason =>
                 if String.eqb reason "" then "Please try again" else reason
             | None => "Please try again"
             end] |}.
Proof.
  intros Hne Hr. unfold UploadModal.handleUpload. rewrite Hr.
  destruct st as [[|f fs] errs]; cbn in *; [congruence|].
  destruct e as [[reason|]]; cbn; [|reflexivity].
  unfold JS.orElse, JS.orUndefined, JS.truthy.
  now destruct (String.eqb reason "").
Qed.

Lemma handleUpload_fulfilled (st : UploadModal.State)
    (onFilesUploaded : list UploadModal.File -> JS.Settled unit) :
  UploadModal.selectedFiles st <> [] ->
  onFilesUploaded (UploadModal.selectedFiles st) = JS.Fulfilled tt ->
  UploadModal.handleUpload onFilesUploaded st = UploadModal.initial.
Proof.
  intros Hne Hr. unfold UploadModal.handleUpload. rewrite Hr.
  destruct (UploadModal.selectedFiles st); [congruence|reflexivity].
Qed.

(** As mounted by the page, the dialog is cleared whether or not the
    uploads succeed. *)
Lemma upload_always_clears
    (mutateAsync : UploadModal.File -> JS.Settled unit)
    (refetch : JS.Settled (list UploadedFile.t))
    (pg : ChatPage.State) (modal : UploadModal.State) :
  UploadModal.selectedFiles modal <> [] ->
  snd (App.upload mutateAsync refetch pg modal) = UploadModal.initial.
Proof.
  intros Hne. unfold App.upload. cbn [snd].
  apply handleUpload_fulfilled; [exact Hne|].
  apply handleFilesUploaded_fulfils.
Qed.

(** C5 at a failing upload. One staged file, an upload operation that
    rejects it: [handleFilesUploaded] catches the rejection, so
    [handleUpload] takes its success path; the staged list and the error
    list end empty and the dialog stays open.  Had the rejection reached
    [handleUpload], the staged file would be kept and one entry
    "Upload failed: Network Error" recorded. *)
Theorem upload_failure_clears_staged :
  ChatPage.uploadAll failingUpload (UploadModal.selectedFiles staged_a)
  = JS.Rejected (JS.mkError (Some "Network Error"))
  /\ App.upload failingUpload (JS.Fulfilled []) page_open staged_a
     = (page_open, UploadModal.initial)
  /\ UploadModal.selectedFiles staged_a <> []
  /\ UploadModal.handleUpload
       (fun files => ChatPage.uploadAll failingUpload files) staged_a
     = {| UploadModal.selectedFiles := UploadModal.selectedFiles staged_a;
          UploadModal.errors := ["Upload failed: Network Error"] |}.
Proof.
  repeat split; try reflexivity. discriminate.
Qed.

(* ================================================================== *)
(** ** ChatPage: selection and active file *)
(* ================================================================== *)

(** C8. Whenever the selection is empty and the listing of uploaded
    files is not, the default-selection effect makes the first file of
    the listing the only selected file and the active file (id and
    document name), and touches nothing else; this holds in particular
    right after an upload whose refetch delivers the first files. *)
Theorem defaultSelection_selects_first (st : ChatPage.State)
    (firstFile : UploadedFile.t) (others : list UploadedFile.t) :
  ChatPage.selectedFiles st = [] ->
  (ChatPage.uploadedFiles st = firstFile :: others ->
   ChatPage.defaultSelection st
   = ChatPage.mkState (ChatPage.showUploadModal st)
       [UploadedFile.id firstFile]
       (Some (UploadedFile.name firstFile))
       (Some (UploadedFile.id firstFile))
       (ChatPage.conversationId st) (ChatPage.messages st)
       (ChatPage.inputText st) (ChatPage.uploadedFiles st))
  /\ (forall mutateAsync files,
        ChatPage.uploadAll mutateAsync files = JS.Fulfilled tt ->
        let st' :=
          ChatPage.defaultSelection
            (fst (ChatPage.handleFilesUploaded mutateAsync
                    (JS.Fulfilled (firstFile :: others)) files st)) in
        ChatPage.selectedFiles st' = [UploadedFile.id firstFile]
        /\ ChatPage.activeFileId st' = Some (UploadedFile.id firstFile)
        /\ ChatPage.activeDocument st'
           = Some (UploadedFile.name firstFile)).
Proof.
  intros Hsel. split.
  - intros Hup. destruct st. cbn in Hsel, Hup. subst. reflexivity.
  - intros mutateAsync files Hok. unfold ChatPage.handleFilesUploaded.
    rewrite Hok. destruct st. cbn in Hsel. subst. cbn. auto.
Qed.

Lemma defaultSelection_selects_first_witness :
  ChatPage.defaultSelection
    (ChatPage.setUploadedFiles listing_two ChatPage.initial)
  = ChatPage.mkState false ["f1"] (Some "lease.pdf") (Some "f1") None [] ""
      listing_two.
Proof.
  apply (defaultSelection_selects_first
           (ChatPage.setUploadedFiles listing_two ChatPage.initial)
           (UploadedFile.mk "f1" "lease.pdf" 1000 "application/pdf" 1)
           [UploadedFile.mk "f2" "nda.pdf" 2000 "application/pdf" 2]).
  - reflexivity.
  - reflexivity.
Defined.

Lemma defaultSelection_idle (st : ChatPage.State) :
  ChatPage.selectedFiles st <> [] \/ ChatPage.uploadedFiles st = [] ->
  ChatPage.defaultSelection st = st.
Proof.
  unfold ChatPage.defaultSelection.
  destruct (ChatPage.selectedFiles st) as [|s ss];
    destruct (ChatPage.uploadedFiles st) as [|u us];
    intros [H|H]; try congruence; reflexivity.
Qed.

Lemma handleFileSelect_remove_idempotent (fileId : string)
    (st : ChatPage.State) :
  ChatPage.handleFileSelect fileId false
    (ChatPage.handleFileSelect fileId false st)
  = ChatPage.handleFileSelect fileId false st.
Proof.
  unfold ChatPage.handleFileSelect, ChatPage.setSelectedFiles. cbn.
  f_equal. induction (ChatPage.selectedFiles st) as [|x xs IH];
    [reflexivity|].
  cbn [filter]. destruct (negb (String.eqb x fileId)) eqn:E; [|exact IH].
  cbn [filter]. rewrite E. now f_equal.
Qed.


(** [handleFileClick] adds the file only when it is not selected yet. *)
Lemma handleFileClick_selected (file : UploadedFile.t)
    (st : ChatPage.State) :
  In (UploadedFile.id file) (ChatPage.selectedFiles st) ->
  ChatPage.selectedFiles (ChatPage.handleFileClick file st)
  = ChatPage.selectedFiles st.
Proof.
  intros H. apply arrayIncludes_In in H. unfold ChatPage.handleFileClick.
  rewrite H. reflexivity.
Qed.

(** C9 at a failing call. [handleFileSelect] with [selected = true]
    appends the id without looking whether it is selected already:
    asking twice for "f1" to be selected leaves two entries "f1", which is
    neither the selection after one call nor free of duplicates. *)
Theorem handleFileSelect_twice_duplicates :
  let once := ChatPage.handleFileSelect "f1" true ChatPage.initial in
  let twice := ChatPage.handleFileSelect "f1" true once in
  ChatPage.selectedFiles once = ["f1"]
  /\ ChatPage.selectedFiles twice = ["f1"; "f1"]
  /\ ChatPage.selectedFiles twice <> ChatPage.selectedFiles once
  /\ ~ NoDup (ChatPage.selectedFiles twice).
Proof.
  cbn. repeat split; try discriminate.
  intros H. inversion H as [|x l Hin _]. apply Hin. now left.
Qed.

(* ================================================================== *)
(** ** ChatPage: the message flow *)
(* ================================================================== *)

Lemma sendMessage_call_some (st : ChatPage.State) (now date : N)
    (text : string) :
  JS.trim text <> "" ->
  ChatPage.sendMessage_call st now date text
  = Some (ChatPage.setInputText ""
            (ChatPage.setMessages
               (ChatPage.messages st
                ++ [Message.mk (JS.toString now) (JS.trim text) user date
                      (JS.orUndefined (ChatPage.conversationId st))])%list
               st),
          ChatRequest.mk (JS.trim text)
            (JS.orUndefined (ChatPage.activeFileId st))
            (JS.orUndefined (ChatPage.conversationId st)),
          ChatPage.mkClosure (ChatPage.conversationId st)).
Proof.
  intros H. apply truthy_spec in H. unfold ChatPage.sendMessage_call.
  now rewrite H.
Qed.

Lemma sendMessage_call_none (st : ChatPage.State) (now date : N)
    (text : string) :
  JS.trim text = "" -> ChatPage.sendMessage_call st now date text = None.
Proof.
  intros H. unfold ChatPage.sendMessage_call. now rewrite H.
Qed.

Lemma orElse_cases (x : option string) (d : string) :
  JS.orElse x d
  = match x with
    | Some s => if String.eqb s "" then d else s
    | None => d
    end.
Proof.
  destruct x as [s|]; [|reflexivity].
  unfold JS.orElse, JS.orUndefined, JS.truthy.
  now destruct (String.eqb s "").
Qed.

Lemma settled_fulfilled_messages (c : ChatPage.Closure)
    (r : ChatResponse.t) (now date : N) (st : ChatPage.State) :
  ChatPage.messages
    (ChatPage.sendMessage_settled c (JS.Fulfilled r) now date st)
  = (ChatPage.messages st
     ++ [Message.mk
           (JS.orElse (ChatResponse.message_id r) (JS.toString (now + 1)))
           (JS.orElse (ChatResponse.response r) "I received your message.")
           ai date (ChatResponse.conversation_id r)])%list.
Proof.
  unfold ChatPage.sendMessage_settled.
  destruct (JS.falsy (ChatPage.closure_conversationId c)
            && negb (JS.falsy (ChatResponse.conversation_id r)));
    reflexivity.
Qed.

(** C1, as stated, fails: a message id that is present and empty is not
    used; the appended message carries the locally generated id. *)
Lemma empty_message_id_not_used :
  ChatResponse.message_id response_empty_id = Some ""
  /\ exists userMessage aiMessage,
       ChatPage.messages
         (ChatPage.sendMessage ChatPage.initial "hello" 1000 1000
            (JS.Fulfilled response_empty_id) 2000 2000)
       = [userMessage; aiMessage]
       /\ Message.sender aiMessage = ai
       /\ Message.id aiMessage = "2001"
       /\ Message.id aiMessage <> "".
Proof.
  split; [reflexivity|]. do 2 eexists. cbn.
  repeat split; discriminate.
Qed.

(** C1, amended. A call of [sendMessage] whose trimmed text is not empty
    and whose chat call succeeds with payload [r] appends the user
    message and then exactly one message with sender [ai]; the id of that
    message is [r.message_id] when that field is present and not empty,
    and the locally generated id (the clock reading plus one, in decimal)
    otherwise; its text is [r.response] when that field is present and
    not empty, and "I received your message." otherwise.  The settlement
    appends that one message to whatever the log holds by then. *)
Theorem sendMessage_success (st : ChatPage.State) (text : string)
    (now date : N) (r : ChatResponse.t) (now' date' : N) :
  JS.trim text <> "" ->
  exists userMessage aiMessage st1 request c,
    ChatPage.sendMessage_call st now date text = Some (st1, request, c)
    /\ ChatPage.messages
         (ChatPage.sendMessage st text now date (JS.Fulfilled r) now' date')
       = (ChatPage.messages st ++ [userMessage; aiMessage])%list
    /\ Message.sender userMessage = user
    /\ Message.sender aiMessage = ai
    /\ Message.id aiMessage
       = match ChatResponse.message_id r with
         | Some m => if String.eqb m "" then JS.toString (now' + 1) else m
         | None => JS.toString (now' + 1)
         end
    /\ Message.text aiMessage
       = match ChatResponse.response r with
         | Some t => if String.eqb t "" then "I received your message."
                     else t
         | None => "I received your message."
         end
    /\ forall later : ChatPage.State,
         ChatPage.messages
           (ChatPage.sendMessage_settled c (JS.Fulfilled r) now' date' later)
         = (ChatPage.messages later ++ [aiMessage])%list.
Proof.
  intros H. do 5 eexists.
  split; [apply sendMessage_call_some; exact H|].
  unfold ChatPage.sendMessage. rewrite (sendMessage_call_some _ _ _ _ H).
  rewrite settled_fulfilled_messages. cbn [ChatPage.messages
    ChatPage.setInputText ChatPage.setMessages].
  split; [rewrite <- app_assoc; reflexivity|].
  cbn [Message.sender Message.id Message.text].
  split; [reflexivity|]. split; [reflexivity|].
  split; [apply orElse_cases|]. split; [apply orElse_cases|].
  intros later. apply settled_fulfilled_messages.
Qed.

Lemma sendMessage_success_witness :
  exists userMessage aiMessage,
    ChatPage.messages
      (ChatPage.sendMessage ChatPage.initial " hello " 1000 1000
         (JS.Fulfilled response_c1) 2000 2000)
    = [userMessage; aiMessage]
    /\ Message.sender aiMessage = ai
    /\ Message.id aiMessage = "m1"
    /\ Message.text aiMessage = "hi".
Proof.
  destruct (sendMessage_success ChatPage.initial " hello " 1000 1000
              response_c1 2000 2000)
    as (u & a & st1 & request & c & _ & Hm & _ & Hs & Hi & Ht & _).
  - vm_compute. discriminate.
  - exists u, a. repeat split; assumption.
Defined.

(** C3, as stated, fails for the [sendMessage] of the [ChatSection]
    that keeps its own messages: its failure text is "Error: <reason>". *)
Lemma ownState_failure_text :
  let st' :=
    ChatSectionOwnState.sendMessage_settled
      (ChatSectionOwnState.mkClosure None)
      (JS.Rejected (JS.mkError (Some "Network Error"))) 2000 2000
      ChatSectionOwnState.initial in
  exists m,
    ChatSectionOwnState.messages st' = [m]
    /\ Message.text m = "Error: Network Error"
    /\ Message.text m <> "Sorry, I encountered an error: Network Error".
Proof.
  eexists. cbn. repeat split. discriminate.
Qed.

(** C3, amended. When the chat call of a [sendMessage] fails, the
    settlement appends exactly one message, with sender [ai], the locally
    generated id and no conversation id, and changes nothing else, the
    stored conversation id included.  Its text ends with the reason of
    the failure when there is one and it is not empty, and with "Please
    try again." otherwise; it starts with "Sorry, I encountered an
    error: " in [ChatPage.sendMessage] and in [internalSendMessage] of
    the [ChatSection] taking props (which then notifies nobody), and with
    "Error: " in the [sendMessage] of the [ChatSection] that keeps its
    own messages. *)
Theorem sendMessage_failure (e : JS.Error) (now date : N) :
  let reason :=
    match JS.message e with
    | Some r => if String.eqb r "" then "Please try again." else r
    | None => "Please try again."
    end in
  let reply (prefix : string) :=
    Message.mk (JS.toString (now + 1)) (prefix ++ reason) ai date None in
  (forall (c : ChatPage.Closure) (st : ChatPage.State),
      let st' := ChatPage.sendMessage_settled c (JS.Rejected e) now date st in
      st' = ChatPage.setMessages
              (ChatPage.messages st
               ++ [reply "Sorry, I encountered an error: "])%list st
      /\ ChatPage.messages st'
         = (ChatPage.messages st
            ++ [reply "Sorry, I encountered an error: "])%list
      /\ ChatPage.conversationId st' = ChatPage.conversationId st)
  /\ (forall (notify : bool) (c : ChatSection.Closure)
             (st : ChatSection.State),
         ChatSection.internalSendMessage_settled notify c (JS.Rejected e)
           now date st
         = (ChatSection.mkState
              (ChatSection.internalMessages st
               ++ [reply "Sorry, I encountered an error: "])%list
              (ChatSection.internalInputText st)
              (ChatSection.conversationId st),
            []))
  /\ (forall (c : ChatSectionOwnState.Closure)
             (st : ChatSectionOwnState.State),
         ChatSectionOwnState.sendMessage_settled c (JS.Rejected e) now date
           st
         = ChatSectionOwnState.mkState
             (ChatSectionOwnState.messages st ++ [reply "Error: "])%list
             (ChatSectionOwnState.inputText st)
             (ChatSectionOwnState.conversationId st)).
Proof.
  cbn zeta. split; [|split].
  - intros c st. unfold ChatPage.sendMessage_settled.
    rewrite orElse_cases. repeat split.
  - intros notify c st. unfold ChatSection.internalSendMessage_settled.
    now rewrite orElse_cases.
  - intros c st. unfold ChatSectionOwnState.sendMessage_settled.
    now rewrite orElse_cases.
Qed.

(* ================================================================== *)
(** ** ChatPage: the conversation id *)
(* ================================================================== *)

Lemma falsy_assigned (id : string) : id <> "" -> JS.falsy (Some id) = false.
Proof.
  intros H. apply truthy_spec in H. unfold JS.falsy, JS.orUndefined.
  now rewrite H.
Qed.

(** The request of a call carries the stored conversation id, and no
    conversation id while none is stored. *)
Lemma request_conversation_id (st st1 : ChatPage.State) (now date : N)
    (text : string) (request : ChatRequest.t) (c : ChatPage.Closure) :
  ChatPage.sendMessage_call st now date text = Some (st1, request, c) ->
  ChatRequest.conversation_id request
  = JS.orUndefined (ChatPage.conversationId st)
  /\ ChatPage.closure_conversationId c = ChatPage.conversationId st
  /\ ChatPage.conversationId st1 = ChatPage.conversationId st.
Proof.
  unfold ChatPage.sendMessage_call.
  destruct (negb (JS.truthy (JS.trim text))); [discriminate|].
  intros H. injection H as <- <- <-. repeat split.
Qed.

(** A call made when an id is stored leaves that id in place. *)
Lemma settled_keeps_assigned (c : ChatPage.Closure)
    (result : JS.Settled ChatResponse.t) (now date : N)
    (st : ChatPage.State) (id : string) :
  id <> "" ->
  ChatPage.closure_conversationId c = Some id ->
  ChatPage.conversationId
    (ChatPage.sendMessage_settled c result now date st)
  = ChatPage.conversationId st.
Proof.
  intros Hid Hc. unfold ChatPage.sendMessage_settled.
  destruct result as [r|e]; [|reflexivity].
  rewrite Hc, (falsy_assigned id Hid). reflexivity.
Qed.

(** When every call settles before the next one is made, an assigned id
    stays for the rest of the session. *)
Lemma exchanges_keep_assigned (xs : list Exchange) :
  forall (st : ChatPage.State) (id : string),
    id <> "" ->
    ChatPage.conversationId st = Some id ->
    ChatPage.conversationId (exchanges st xs) = Some id.
Proof.
  induction xs as [|x xs IH]; intros st id Hid Hst; [exact Hst|].
  cbn [exchanges fold_left]. apply (IH _ id Hid).
  destruct x as [[[[[text now] date] result] now'] date'].
  cbn [exchange]. unfold ChatPage.sendMessage.
  destruct (ChatPage.sendMessage_call st now date text)
    as [[[st1 request] c]|] eqn:E; [|exact Hst].
  destruct (request_conversation_id _ _ _ _ _ _ _ E) as (_ & Hc & H1).
  rewrite (settled_keeps_assigned c result now' date' st1 id Hid);
    congruence.
Qed.

(** The stored id is never the empty string. *)
Lemma step_conversationId_truthy (s : ChatPage.Session)
    (e : ChatPage.Event) :
  ChatPage.conversationId (ChatPage.page s) <> Some "" ->
  ChatPage.conversationId (ChatPage.page (ChatPage.step s e)) <> Some "".
Proof.
  intros H. destruct e as [text now date|k result now date];
    cbn [ChatPage.step].
  - destruct (ChatPage.sendMessage_call (ChatPage.page s) now date text)
      as [[[st1 request] c]|] eqn:E; [|exact H].
    destruct (request_conversation_id _ _ _ _ _ _ _ E) as (_ & _ & H1).
    cbn. congruence.
  - destruct (ChatPage.settleAt k (ChatPage.inflight s)) as [[c|] calls];
      [|exact H].
    cbn [ChatPage.page]. unfold ChatPage.sendMessage_settled.
    destruct result as [r|err]; [|exact H].
    destruct (JS.falsy (ChatPage.closure_conversationId c)); cbn [andb];
      [|exact H].
    destruct (ChatResponse.conversation_id r) as [[|a id]|];
      cbn; try exact H. discriminate.
Qed.

(** A response that carries an id, settling a call made while none was
    stored, stores that id whatever is stored by then. *)
Lemma settled_adopts (c : ChatPage.Closure) (r : ChatResponse.t)
    (now date : N) (st : ChatPage.State) (id : string) :
  ChatPage.closure_conversationId c = None ->
  ChatResponse.conversation_id r = Some id ->
  id <> "" ->
  ChatPage.conversationId
    (ChatPage.sendMessage_settled c (JS.Fulfilled r) now date st)
  = Some id.
Proof.
  intros Hc Hr Hid. unfold ChatPage.sendMessage_settled.
  rewrite Hc, Hr, (falsy_assigned id Hid). reflexivity.
Qed.

(** Two calls made while no id is stored: the id of the response that
    settles last is the one that stays. *)
Lemma overlapping_calls_reassign (st st1 st2 : ChatPage.State)
    (text1 text2 : string) (now1 date1 now2 date2 : N)
    (q1 q2 : ChatRequest.t) (k1 k2 : ChatPage.Closure)
    (r1 r2 : ChatResponse.t) (id1 id2 : string)
    (now3 date3 now4 date4 : N) :
  ChatPage.conversationId st = None ->
  ChatPage.sendMessage_call st now1 date1 text1 = Some (st1, q1, k1) ->
  ChatPage.sendMessage_call st1 now2 date2 text2 = Some (st2, q2, k2) ->
  ChatResponse.conversation_id r1 = Some id1 -> id1 <> "" ->
  ChatResponse.conversation_id r2 = Some id2 -> id2 <> "" ->
  let st3 :=
    ChatPage.sendMessage_settled k1 (JS.Fulfilled r1) now3 date3 st2 in
  let st4 :=
    ChatPage.sendMessage_settled k2 (JS.Fulfilled r2) now4 date4 st3 in
  ChatPage.conversationId st3 = Some id1
  /\ ChatPage.conversationId st4 = Some id2.
Proof.
  intros H0 E1 E2 R1 I1 R2 I2 st3 st4.
  destruct (request_conversation_id _ _ _ _ _ _ _ E1) as (_ & C1 & S1).
  destruct (request_conversation_id _ _ _ _ _ _ _ E2) as (_ & C2 & _).
  split.
  - apply settled_adopts; congruence.
  - apply settled_adopts; congruence.
Qed.

(** C2 at two overlapping calls. The id starts absent; both calls are
    made while it is absent, so neither request carries one and both
    continuations hold [null] in their closure.  The first response
    assigns "c1"; the second, tested against the closure and not against
    the stored id, assigns "c2" over it. *)
Theorem conversationId_reassigned :
  let s3 := ChatPage.run ChatPage.start overlapping in
  let s4 := ChatPage.step s3
              (ChatPage.Settle 1 (JS.Fulfilled response_c2) 2001 2001) in
  ChatPage.conversationId (ChatPage.page ChatPage.start) = None
  /\ map ChatRequest.conversation_id (ChatPage.outbox s3) = [None; None]
  /\ ChatPage.conversationId (ChatPage.page s3) = Some "c1"
  /\ ChatPage.conversationId (ChatPage.page s4) = Some "c2".
Proof.
  vm_compute. repeat split.
Qed.

(* ================================================================== *)
(** ** UploadModal: further properties of staging *)
(* ================================================================== *)

Lemma acceptable_verdict (count : nat) (st : UploadModal.State)
    (f : UploadModal.File) :
  acceptable count st f <-> amended_verdict count st f = None.
Proof.
  unfold acceptable, wellFormed. rewrite amended_verdict_accepts. tauto.
Qed.

Lemma verdicts_all_accept (v : UploadModal.File -> option string)
    (batch : list UploadModal.File) :
  Forall (fun f => v f = None) batch ->
  acceptances v batch = batch /\ rejections v batch = [].
Proof.
  unfold acceptances, rejections.
  induction 1 as [|f fs Hf _ [IHa IHr]]; [split; reflexivity|].
  cbn [filter flat_map]. rewrite Hf, IHa, IHr. split; reflexivity.
Qed.


Lemma acceptances_wellFormed (count : nat) (st : UploadModal.State)
    (batch : list UploadModal.File) :
  Forall wellFormed (acceptances (amended_verdict count st) batch).
Proof.
  apply Forall_forall. intros f Hf. unfold acceptances in Hf.
  apply filter_In in Hf. destruct Hf as [_ Hf].
  destruct (amended_verdict count st f) eqn:V; [discriminate|].
  apply acceptable_verdict in V. apply V.
Qed.

(** X1. A batch whose candidates each pass the checks against the state
    before the batch is staged whole, in order, with no new error: the
    checks do not look at the other candidates of the batch, so candidates
    that share a name are all staged, and the batch may take the total
    past 50, after which [canUpload] is false. *)
Theorem handleFiles_stages_whole_batch (count : nat)
    (st : UploadModal.State) (batch : list UploadModal.File) :
  Forall (acceptable count st) batch ->
  UploadModal.handleFiles count st batch
  = {| UploadModal.selectedFiles :=
         (UploadModal.selectedFiles st ++ batch)%list;
       UploadModal.errors :=
         filter (UploadModal.keepsError batch) (UploadModal.errors st) |}
  /\ (50 < count + List.length (UploadModal.selectedFiles st)
           + List.length batch ->
      forall isUploading,
        UploadModal.canUpload count isUploading
          (UploadModal.handleFiles count st batch) = false).
Proof.
  intros H.
  assert (V : Forall (fun f => amended_verdict count st f = None) batch).
  { eapply Forall_impl; [|exact H]. intros f. apply acceptable_verdict. }
  destruct (verdicts_all_accept _ _ V) as [Ha Hr].
  assert (E : UploadModal.handleFiles count st batch
              = {| UploadModal.selectedFiles :=
                     (UploadModal.selectedFiles st ++ batch)%list;
                   UploadModal.errors :=
                     filter (UploadModal.keepsError batch)
                       (UploadModal.errors st) |}).
  { rewrite handleFiles_verdict, Ha, Hr. now rewrite app_nil_r. }
  split; [exact E|]. intros Hover isUploading. rewrite E.
  unfold UploadModal.canUpload. cbn [UploadModal.selectedFiles].
  rewrite length_app.
  replace (count + (List.length (UploadModal.selectedFiles st)
                    + List.length batch) <=? UploadModal.MAX_FILES)%nat
    with false; [apply andb_false_r|].
  symmetry. apply Nat.leb_gt. change UploadModal.MAX_FILES with 50. lia.
Qed.

Lemma handleFiles_stages_whole_batch_witness :
  UploadModal.handleFiles 49 UploadModal.initial [pdf_a; pdf_a]
  = {| UploadModal.selectedFiles := [pdf_a; pdf_a];
       UploadModal.errors := [] |}
  /\ forall isUploading,
       UploadModal.canUpload 49 isUploading
         (UploadModal.handleFiles 49 UploadModal.initial [pdf_a; pdf_a])
       = false.
Proof.
  assert (A : acceptable 49 UploadModal.initial pdf_a).
  { unfold acceptable, wellFormed. cbn.
    repeat split; [tauto | discriminate | lia]. }
  destruct (handleFiles_stages_whole_batch 49 UploadModal.initial
              [pdf_a; pdf_a]) as [E C].
  - apply Forall_cons; [exact A|].
    apply Forall_cons; [exact A|apply Forall_nil].
  - split; [exact E|]. apply C. cbn. lia.
Defined.



Lemma string_app_assoc (a b c : string) : (a ++ b) ++ c = a ++ (b ++ c).
Proof. induction a as [|x a IH]; cbn; [reflexivity|now rewrite IH]. Qed.

Lemma startsWith_spec (s p : string) :
  JS.startsWith s p = true <-> exists b, s = p ++ b.
Proof.
  revert s. induction p as [|x p IH]; intros s; cbn.
  - split; [intros _; now exists s|reflexivity].
  - destruct s as [|y s].
    + split; [discriminate|intros [b H]; discriminate].
    + rewrite andb_true_iff, IH. split.
      * intros [E [b ->]]. apply Ascii.eqb_eq in E. subst. now exists b.
      * intros [b H]. injection H as -> ->.
        split; [apply Ascii.eqb_refl|now exists b].
Qed.

Lemma includes_spec (s p : string) :
  JS.includes s p = true <-> exists a b, s = a ++ p ++ b.
Proof.
  induction s as [|c s IH].
  - cbn [JS.includes]. rewrite orb_false_r, startsWith_spec. split.
    + intros [b H]. now exists "", b.
    + intros (a & b & H). destruct a; [now exists b|discriminate].
  - cbn [JS.includes]. rewrite orb_true_iff, startsWith_spec, IH. split.
    + intros [[b H]|(a & b & H)].
      * now exists "", b.
      * exists (String c a), b. cbn. now rewrite H.
    + intros (a & b & H). destruct a as [|x a].
      * left. now exists b.
      * right. injection H as _ H. now exists a, b.
Qed.

(** A string that includes [n] includes everything [n] includes. *)
Lemma includes_trans (e n m : string) :
  JS.includes e n = true -> JS.includes n m = true ->
  JS.includes e m = true.
Proof.
  rewrite !includes_spec. intros (a & b & ->) (a' & b' & ->).
  exists (a ++ a'), (b' ++ b).
  now rewrite !string_app_assoc.
Qed.

Lemma removeFile_staged (st st' : UploadModal.State) (index : Z) :
  UploadModal.removeFile st index = JS.Normal st' ->
  UploadModal.selectedFiles st'
  = JS.filteri (fun _ i => negb (i =? index)%Z)
      (UploadModal.selectedFiles st).
Proof.
  destruct (JS.index (UploadModal.selectedFiles st) index) as [f|] eqn:I.
  - rewrite (removeFile_defined _ _ _ I). now intros [= <-].
  - rewrite (removeFile_undefined _ _ I).
    destruct (UploadModal.errors st); [|discriminate].
    intros [= <-]. symmetry. apply filteri_from_keep.
    unfold JS.index in I. destruct (Z.leb_spec 0 index) as [P|P]; [|lia].
    apply nth_error_None in I. lia.
Qed.

Lemma filteri_from_incl {A} (p : A -> Z -> bool) (xs : list A) :
  forall b x, In x (JS.filteri_from p b xs) -> In x xs.
Proof.
  induction xs as [|y ys IH]; intros b x; cbn; [tauto|].
  destruct (p y b); cbn; intros H.
  - destruct H as [H|H]; [now left|right; eapply IH; exact H].
  - right. eapply IH; exact H.
Qed.

Lemma step_wellFormed (st st' : UploadModalEvents.State)
    (ce : nat * UploadModalEvents.Event) :
  Forall wellFormed
    (UploadModal.selectedFiles (UploadModalEvents.staging st)) ->
  UploadModalEvents.step st ce = JS.Normal st' ->
  Forall wellFormed
    (UploadModal.selectedFiles (UploadModalEvents.staging st')).
Proof.
  intros Inv. destruct ce as [count e].
  assert (HF : forall fs,
             Forall wellFormed
               (UploadModal.selectedFiles
                  (UploadModal.handleFiles count
                     (UploadModalEvents.staging st) fs))).
  { intros fs. rewrite handleFiles_verdict. cbn.
    apply Forall_app. split; [exact Inv|apply acceptances_wellFormed]. }
  destruct e as [type|files|files|index| |cb]; cbn [UploadModalEvents.step].
  - intros [= <-]. unfold UploadModalEvents.handleDrag.
    destruct (_ || _); [exact Inv|]. destruct (String.eqb _ _); exact Inv.
  - intros [= <-]. unfold UploadModalEvents.handleDrop.
    destruct files as [fs|]; [|exact Inv].
    destruct (0 <? List.length fs)%nat; [apply HF|exact Inv].
  - intros [= <-]. unfold UploadModalEvents.handleFileInput.
    destruct files as [fs|]; [|exact Inv].
    destruct (0 <? List.length fs)%nat; [apply HF|exact Inv].
  - destruct (UploadModal.removeFile (UploadModalEvents.staging st) index)
      as [s'|err] eqn:R; cbn; [|discriminate].
    intros [= <-]. cbn. rewrite (removeFile_staged _ _ _ R).
    apply Forall_forall. intros f Hf.
    apply filteri_from_incl in Hf.
    rewrite Forall_forall in Inv. now apply Inv.
  - intros [= <-]. exact Inv.
  - intros [= <-]. cbn. unfold UploadModal.handleUpload.
    destruct (List.length _ =? 0)%nat; [exact Inv|].
    destruct (cb _); cbn; [constructor|exact Inv].
Qed.

(** X3. Through any sequence of events of the dialog (drags, drops, file
    input, removals, clearing the errors, submissions), with whatever
    stored count at each, every staged file has the MIME type
    "application/pdf" and a size of at most 10 MiB. *)
Theorem staged_files_wellFormed
    (events : list (nat * UploadModalEvents.Event)) :
  forall st st' : UploadModalEvents.State,
    Forall wellFormed
      (UploadModal.selectedFiles (UploadModalEvents.staging st)) ->
    UploadModalEvents.run st events = JS.Normal st' ->
    Forall wellFormed
      (UploadModal.selectedFiles (UploadModalEvents.staging st')).
Proof.
  induction events as [|ce events IH]; intros st st' Inv; cbn.
  - now intros [= <-].
  - destruct (UploadModalEvents.step st ce) as [s1|err] eqn:S; cbn;
      [|discriminate].
    apply IH. eapply step_wellFormed; eassumption.
Qed.

Lemma staged_files_wellFormed_witness :
  Forall wellFormed
    (UploadModal.selectedFiles
       (UploadModalEvents.staging
          (UploadModalEvents.mkState false
             {| UploadModal.selectedFiles := [pdf_a];
                UploadModal.errors :=
                  ["a.pdf: Only PDF files are supported"] |}))).
Proof.
  apply (staged_files_wellFormed
           [(0, UploadModalEvents.Drag "dragenter");
            (0, UploadModalEvents.Drop (Some [text_a; pdf_a]))]
           UploadModalEvents.initial).
  - constructor.
  - reflexivity.
Defined.

(** X4. Every error entry a batch produces either starts with the name
    of one of its candidates, followed by ": ", and so includes that
    name, or is the capacity message, which names no file. *)
Theorem new_errors_name_their_file (count : nat) (st : UploadModal.State)
    (batch : list UploadModal.File) (e : string) :
  In e (fst (UploadModal.scanFiles count st batch)) ->
  e = capacityMessage
  \/ exists f rest,
       In f batch
       /\ e = UploadModal.name f ++ ": " ++ rest
       /\ JS.includes e (UploadModal.name f) = true.
Proof.
  rewrite scanFiles_verdict. cbn [fst]. unfold rejections.
  rewrite in_flat_map. intros (f & Hf & He).
  destruct (amended_verdict count st f) as [e'|] eqn:V; [|contradiction].
  destruct He as [<-|[]]. revert V. unfold amended_verdict.
  assert (K : forall rest,
             exists f0 rest0,
               In f0 batch
               /\ UploadModal.name f ++ ": " ++ rest
                  = UploadModal.name f0 ++ ": " ++ rest0
               /\ JS.includes (UploadModal.name f ++ ": " ++ rest)
                    (UploadModal.name f0) = true).
  { intros rest. exists f, rest. repeat split; [exact Hf|].
    apply includes_append. }
  destruct (UploadModal.arrayIncludes _ _).
  { intros [= <-]. right. apply (K "File already selected"). }
  destruct (negb _).
  { intros [= <-]. right. apply (K "Only PDF files are supported"). }
  destruct (_ <? _)%N.
  { intros [= <-]. right. apply (K "File size must be under 10MB"). }
  destruct (_ <=? _)%nat; [|discriminate].
  intros [= <-]. now left.
Qed.

Lemma new_errors_name_their_file_witness :
  "a.pdf: Only PDF files are supported" = capacityMessage
  \/ exists f rest,
       In f [text_a]
       /\ "a.pdf: Only PDF files are supported"
          = UploadModal.name f ++ ": " ++ rest
       /\ JS.includes "a.pdf: Only PDF files are supported"
            (UploadModal.name f) = true.
Proof.
  apply (new_errors_name_their_file 0 UploadModal.initial [text_a]).
  cbn. now left.
Defined.

Lemma handleFiles_single_accepted (count : nat) (st : UploadModal.State)
    (f : UploadModal.File) :
  acceptable count st f ->
  UploadModal.handleFiles count st [f]
  = {| UploadModal.selectedFiles :=
         (UploadModal.selectedFiles st ++ [f])%list;
       UploadModal.errors :=
         filter (fun e => negb (JS.includes e (UploadModal.name f)))
           (UploadModal.errors st) |}.
Proof.
  intros A. apply acceptable_verdict in A.
  rewrite handleFiles_verdict. unfold acceptances, rejections.
  cbn [filter flat_map]. rewrite A. cbn [app]. rewrite app_nil_r.
  f_equal. apply filter_ext. intros e. unfold UploadModal.keepsError.
  cbn. now rewrite orb_false_r.
Qed.

Lemma filter_idempotent {A} (p : A -> bool) (xs : list A) :
  filter p (filter p xs) = filter p xs.
Proof.
  induction xs as [|x xs IH]; [reflexivity|]. cbn.
  destruct (p x) eqn:E; cbn; [rewrite E; now f_equal|exact IH].
Qed.

(** X5. Staging one file that passes the checks and then removing it, at
    the index it was given (the end of the staged list), gives back the
    staged list as it was; of the errors, those that include the name of
    the file are gone and the others are as they were. *)
Theorem stage_then_remove (count : nat) (st : UploadModal.State)
    (f : UploadModal.File) :
  acceptable count st f ->
  UploadModal.removeFile (UploadModal.handleFiles count st [f])
    (Z.of_nat (List.length (UploadModal.selectedFiles st)))
  = JS.Normal
      {| UploadModal.selectedFiles := UploadModal.selectedFiles st;
         UploadModal.errors :=
           filter (fun e => negb (JS.includes e (UploadModal.name f)))
             (UploadModal.errors st) |}.
Proof.
  intros A. rewrite (handleFiles_single_accepted _ _ _ A).
  set (n := List.length (UploadModal.selectedFiles st)).
  rewrite (removeFile_defined _ _ f).
  - cbn [UploadModal.selectedFiles UploadModal.errors].
    rewrite filter_idempotent. f_equal. f_equal.
    unfold JS.filteri. rewrite filteri_from_drop by lia.
    rewrite Z.sub_0_r, Nat2Z.id. unfold n.
    rewrite firstn_app, firstn_all, Nat.sub_diag. cbn [firstn].
    rewrite app_nil_r.
    rewrite skipn_all2 by (rewrite length_app; cbn; lia).
    apply app_nil_r.
  - cbn [UploadModal.selectedFiles]. unfold JS.index.
    destruct (Z.leb_spec 0 (Z.of_nat n)) as [_|P]; [|lia].
    rewrite Nat2Z.id. unfold n.
    rewrite nth_error_app2 by lia. now rewrite Nat.sub_diag.
Qed.

Lemma stage_then_remove_witness :
  UploadModal.removeFile
    (UploadModal.handleFiles 0 UploadModal.initial [pdf_a]) 0
  = JS.Normal UploadModal.initial.
Proof.
  apply (stage_then_remove 0 UploadModal.initial pdf_a).
  unfold acceptable, wellFormed. cbn.
  repeat split; [tauto | discriminate | lia].
Defined.

(** X6. The test for "related" errors is inclusion of the name, so
    removing a staged file also removes the error entries of every file
    whose name contains the removed name: no entry that includes such a
    name is left. *)
Theorem removeFile_removes_containing_names (st : UploadModal.State)
    (index : Z) (removed : UploadModal.File) :
  JS.index (UploadModal.selectedFiles st) index = Some removed ->
  exists st',
    UploadModal.removeFile st index = JS.Normal st'
    /\ forall e n,
         JS.includes n (UploadModal.name removed) = true ->
         JS.includes e n = true ->
         ~ In e (UploadModal.errors st').
Proof.
  intros I. eexists. split; [apply removeFile_defined; exact I|].
  cbn [UploadModal.errors]. intros e n Hn He Hin.
  apply filter_In in Hin. destruct Hin as [_ Hin].
  now rewrite (includes_trans e n _ He Hn) in Hin.
Qed.

Lemma removeFile_removes_containing_names_witness :
  exists st',
    UploadModal.removeFile
      {| UploadModal.selectedFiles := [pdf_a];
         UploadModal.errors := ["aa.pdf: Only PDF files are supported"] |}
      0
    = JS.Normal st'
    /\ forall e n,
         JS.includes n (UploadModal.name pdf_a) = true ->
         JS.includes e n = true ->
         ~ In e (UploadModal.errors st').
Proof.
  apply (removeFile_removes_containing_names
           {| UploadModal.selectedFiles := [pdf_a];
              UploadModal.errors :=
                ["aa.pdf: Only PDF files are supported"] |} 0 pdf_a).
  reflexivity.
Defined.

(** X7. [handleUpload] with nothing staged does nothing, whatever errors
    are shown.  With files staged, the earlier error entries are gone
    whichever way the submission ends: fulfilled, nothing is staged, no
    error is left and [canUpload] is false; rejected, the staged files
    are kept, the only error entry starts with "Upload failed: ", and
    [canUpload] is what it was before. *)
Theorem handleUpload_outcomes (count : nat) (isUploading : bool)
    (onFilesUploaded : list UploadModal.File -> JS.Settled unit)
    (st : UploadModal.State) :
  let st' := UploadModal.handleUpload onFilesUploaded st in
  (UploadModal.selectedFiles st = [] -> st' = st)
  /\ (UploadModal.selectedFiles st <> [] ->
      onFilesUploaded (UploadModal.selectedFiles st) = JS.Fulfilled tt ->
      st' = UploadModal.initial
      /\ UploadModal.canUpload count isUploading st' = false)
  /\ (UploadModal.selectedFiles st <> [] ->
      forall e,
        onFilesUploaded (UploadModal.selectedFiles st) = JS.Rejected e ->
        UploadModal.selectedFiles st' = UploadModal.selectedFiles st
        /\ (exists reason,
              UploadModal.errors st' = ["Upload failed: " ++ reason])
        /\ UploadModal.canUpload count isUploading st'
           = UploadModal.canUpload count isUploading st).
Proof.
  cbn zeta. split; [|split].
  - intros E. unfold UploadModal.handleUpload. now rewrite E.
  - intros Hne Hr. rewrite (handleUpload_fulfilled _ _ Hne Hr).
    split; reflexivity.
  - intros Hne e Hr. rewrite (handleUpload_rejected _ _ _ Hne Hr).
    cbn [UploadModal.selectedFiles UploadModal.errors].
    split; [reflexivity|]. split; [eexists; reflexivity|reflexivity].
Qed.

Lemma handleUpload_outcomes_witness :
  UploadModal.selectedFiles
    (UploadModal.handleUpload
       (fun _ => JS.Rejected (JS.mkError None)) staged_two)
  = UploadModal.selectedFiles staged_two
  /\ (exists reason,
        UploadModal.errors
          (UploadModal.handleUpload
             (fun _ => JS.Rejected (JS.mkError None)) staged_two)
        = ["Upload failed: " ++ reason])
  /\ UploadModal.canUpload 3 false
       (UploadModal.handleUpload
          (fun _ => JS.Rejected (JS.mkError None)) staged_two)
     = UploadModal.canUpload 3 false staged_two.
Proof.
  refine (proj2 (proj2 (handleUpload_outcomes 3 false
                          (fun _ => JS.Rejected (JS.mkError None))
                          staged_two)) _ (JS.mkError None) _).
  - cbn. discriminate.
  - reflexivity.
Defined.

(* ================================================================== *)
(** ** ChatPage: further properties of uploading and selecting *)
(* ================================================================== *)

Lemma uploadAll_fulfilled
    (mutateAsync : UploadModal.File -> JS.Settled unit)
    (files : list UploadModal.File) :
  ChatPage.uploadAll mutateAsync files = JS.Fulfilled tt
  <-> Forall (fun f => fulfilled (mutateAsync f)) files.
Proof.
  induction files as [|f files IH]; cbn.
  - split; [constructor|reflexivity].
  - destruct (mutateAsync f) as [[]|e] eqn:M.
    + rewrite IH. split.
      * intros H. constructor; [now exists tt|exact H].
      * now inversion 1.
    + split; [discriminate|]. inversion 1 as [|? ? [a Ha] _].
      rewrite M in Ha. discriminate.
Qed.

Lemma uploadAll_rejected
    (mutateAsync : UploadModal.File -> JS.Settled unit)
    (files : list UploadModal.File) (e : JS.Error) :
  ChatPage.uploadAll mutateAsync files = JS.Rejected e
  <-> exists before f after,
        files = (before ++ f :: after)%list
        /\ Forall (fun f => fulfilled (mutateAsync f)) before
        /\ mutateAsync f = JS.Rejected e.
Proof.
  induction files as [|f files IH]; cbn.
  - split; [discriminate|]. intros (b & g & a & H & _).
    destruct b; discriminate.
  - destruct (mutateAsync f) as [[]|e'] eqn:M.
    + rewrite IH. split.
      * intros (b & g & a & -> & Hb & Hg). exists (f :: b), g, a.
        repeat split; [|exact Hg]. constructor; [now exists tt|exact Hb].
      * intros (b & g & a & H & Hb & Hg). destruct b as [|x b].
        -- injection H as <- _. congruence.
        -- injection H as <- ->. exists b, g, a.
           repeat split; [now inversion Hb|exact Hg].
    + split.
      * intros [= <-]. exists [], f, files. repeat split; [constructor|exact M].
      * intros (b & g & a & H & Hb & Hg). destruct b as [|x b].
        -- injection H as <- _. congruence.
        -- injection H as <- _. inversion Hb as [|? ? [u Hu] _].
           rewrite M in Hu. discriminate.
Qed.

(** X8. The uploads of a batch run in order and stop at the first
    rejection: the batch is fulfilled exactly when every upload is, it is
    rejected with the error of the first upload that is rejected, and the
    files after that one play no part in the outcome. *)
Theorem uploadAll_settlement
    (mutateAsync : UploadModal.File -> JS.Settled unit)
    (files : list UploadModal.File) :
  (ChatPage.uploadAll mutateAsync files = JS.Fulfilled tt
   <-> Forall (fun f => fulfilled (mutateAsync f)) files)
  /\ (forall e,
        ChatPage.uploadAll mutateAsync files = JS.Rejected e
        <-> exists before f after,
              files = (before ++ f :: after)%list
              /\ Forall (fun f => fulfilled (mutateAsync f)) before
              /\ mutateAsync f = JS.Rejected e)
  /\ (forall before f after after' e,
        files = (before ++ f :: after)%list ->
        Forall (fun f => fulfilled (mutateAsync f)) before ->
        mutateAsync f = JS.Rejected e ->
        ChatPage.uploadAll mutateAsync (before ++ f :: after')
        = ChatPage.uploadAll mutateAsync files).
Proof.
  split; [apply uploadAll_fulfilled|]. split; [apply uploadAll_rejected|].
  intros before f after after' e -> Hb Hf.
  assert (R : forall rest,
             ChatPage.uploadAll mutateAsync (before ++ f :: rest)
             = JS.Rejected e).
  { intros rest. apply uploadAll_rejected. now exists before, f, rest. }
  now rewrite !R.
Qed.

Lemma uploadAll_settlement_witness :
  ChatPage.uploadAll
    (fun f => if String.eqb (UploadModal.name f) "a.pdf"
              then JS.Fulfilled tt
              else JS.Rejected (JS.mkError (Some "too large")))
    [pdf_a; UploadModal.mkFile "b.pdf" "application/pdf" 5]
  = ChatPage.uploadAll
      (fun f => if String.eqb (UploadModal.name f) "a.pdf"
                then JS.Fulfilled tt
                else JS.Rejected (JS.mkError (Some "too large")))
      [pdf_a; UploadModal.mkFile "b.pdf" "application/pdf" 5; pdf_a].
Proof.
  refine (proj2 (proj2 (uploadAll_settlement _ _))
            [pdf_a] (UploadModal.mkFile "b.pdf" "application/pdf" 5)
            [pdf_a] [] (JS.mkError (Some "too large")) _ _ _).
  - reflexivity.
  - constructor; [now exists tt|constructor].
  - reflexivity.
Defined.

(** X9. [handleFilesUploaded] touches the page only when every upload
    and the refetch are fulfilled: then the listing is replaced and the
    dialog closed.  When an upload is rejected the page state is exactly
    what it was, also when uploads before it went through: the listing is
    not refreshed and the dialog stays as it is.  In no case are the
    selection, the active file, the conversation or the messages
    changed. *)
Theorem handleFilesUploaded_effect
    (mutateAsync : UploadModal.File -> JS.Settled unit)
    (refetch : JS.Settled (list UploadedFile.t))
    (files : list UploadModal.File) (st : ChatPage.State) :
  let st' :=
    fst (ChatPage.handleFilesUploaded mutateAsync refetch files st) in
  (forall listing,
      Forall (fun f => fulfilled (mutateAsync f)) files ->
      refetch = JS.Fulfilled listing ->
      st' = ChatPage.setShowUploadModal false
              (ChatPage.setUploadedFiles listing st))
  /\ (forall before f after e,
        files = (before ++ f :: after)%list ->
        Forall (fun f => fulfilled (mutateAsync f)) before ->
        mutateAsync f = JS.Rejected e ->
        st' = st)
  /\ (forall e, refetch = JS.Rejected e -> st' = st)
  /\ ChatPage.selectedFiles st' = ChatPage.selectedFiles st
  /\ ChatPage.activeFileId st' = ChatPage.activeFileId st
  /\ ChatPage.activeDocument st' = ChatPage.activeDocument st
  /\ ChatPage.conversationId st' = ChatPage.conversationId st
  /\ ChatPage.messages st' = ChatPage.messages st.
Proof.
  cbn zeta. unfold ChatPage.handleFilesUploaded. split; [|split; [|split]].
  - intros listing Hall ->. apply uploadAll_fulfilled in Hall.
    now rewrite Hall.
  - intros before f after e Hs Hb Hf.
    assert (R : ChatPage.uploadAll mutateAsync files = JS.Rejected e).
    { apply uploadAll_rejected. now exists before, f, after. }
    now rewrite R.
  - intros e ->. now destruct (ChatPage.uploadAll mutateAsync files).
  - destruct (ChatPage.uploadAll mutateAsync files); [destruct refetch|];
      repeat split.
Qed.

Lemma handleFilesUploaded_effect_witness :
  fst (ChatPage.handleFilesUploaded
         (fun f => if String.eqb (UploadModal.type f) "application/pdf"
                   then JS.Fulfilled tt
                   else JS.Rejected (JS.mkError None))
         (JS.Fulfilled listing_two) [pdf_a; text_a] page_open)
  = page_open.
Proof.
  refine (proj1 (proj2 (handleFilesUploaded_effect _ _ _ _))
            [pdf_a] text_a [] (JS.mkError None) _ _ _).
  - reflexivity.
  - constructor; [now exists tt|constructor].
  - reflexivity.
Defined.

(** X10. After the default-selection effect the selection is not empty
    whenever the listing is not; running the effect again changes
    nothing; and deselecting the only selected file makes the effect
    select and activate the first listed file, so the selection cannot
    be left empty while files are listed. *)
Theorem defaultSelection_keeps_selection (st : ChatPage.State) :
  (ChatPage.uploadedFiles st <> [] ->
   ChatPage.selectedFiles (ChatPage.defaultSelection st) <> [])
  /\ ChatPage.defaultSelection (ChatPage.defaultSelection st)
     = ChatPage.defaultSelection st
  /\ (forall id firstFile others,
        ChatPage.selectedFiles st = [id] ->
        ChatPage.uploadedFiles st = firstFile :: others ->
        let st' :=
          ChatPage.defaultSelection
            (ChatPage.handleFileSelect id false st) in
        ChatPage.selectedFiles st' = [UploadedFile.id firstFile]
        /\ ChatPage.activeFileId st' = Some (UploadedFile.id firstFile)).
Proof.
  destruct st as [show sel doc act cid msgs inp ups]. split; [|split].
  - cbn. intros Hup. unfold ChatPage.defaultSelection. cbn.
    destruct sel as [|s sel]; [|discriminate].
    destruct ups as [|u ups]; [congruence|]. cbn. discriminate.
  - unfold ChatPage.defaultSelection. cbn.
    destruct sel as [|s sel]; [|reflexivity].
    destruct ups as [|u ups]; reflexivity.
  - cbn. intros id firstFile others -> ->.
    unfold ChatPage.handleFileSelect, ChatPage.defaultSelection. cbn.
    rewrite String.eqb_refl. cbn. split; reflexivity.
Qed.

Lemma defaultSelection_keeps_selection_witness :
  ChatPage.selectedFiles
    (ChatPage.defaultSelection
       (ChatPage.setUploadedFiles listing_two ChatPage.initial))
  <> [].
Proof.
  apply (defaultSelection_keeps_selection
           (ChatPage.setUploadedFiles listing_two ChatPage.initial)).
  cbn. discriminate.
Defined.

Lemma NoDup_snoc {A} (xs : list A) (x : A) :
  NoDup xs -> ~ In x xs -> NoDup (xs ++ [x]).
Proof.
  intros Hn Hx. induction Hn as [|y ys Hy Hn IH]; cbn.
  - constructor; [tauto|constructor].
  - constructor.
    + rewrite in_app_iff. cbn. intros [H|[H|[]]]; [tauto|].
      subst. apply Hx. now left.
    + apply IH. intros H. apply Hx. now right.
Qed.

(** X11. Clicking a file makes it the active file (id and document
    name) and leaves it selected: the selection keeps its entries in
    place and gains the id at the end only if it was missing, so a
    selection without duplicates stays without duplicates.  Nothing else
    changes. *)
Theorem handleFileClick_activates (file : UploadedFile.t)
    (st : ChatPage.State) :
  let st' := ChatPage.handleFileClick file st in
  ChatPage.activeFileId st' = Some (UploadedFile.id file)
  /\ ChatPage.activeDocument st' = Some (UploadedFile.name file)
  /\ In (UploadedFile.id file) (ChatPage.selectedFiles st')
  /\ (ChatPage.selectedFiles st' = ChatPage.selectedFiles st
      \/ (~ In (UploadedFile.id file) (ChatPage.selectedFiles st)
          /\ ChatPage.selectedFiles st'
             = (ChatPage.selectedFiles st ++ [UploadedFile.id file])%list))
  /\ (NoDup (ChatPage.selectedFiles st) ->
      NoDup (ChatPage.selectedFiles st'))
  /\ ChatPage.messages st' = ChatPage.messages st
  /\ ChatPage.conversationId st' = ChatPage.conversationId st
  /\ ChatPage.uploadedFiles st' = ChatPage.uploadedFiles st
  /\ ChatPage.showUploadModal st' = ChatPage.showUploadModal st.
Proof.
  cbn zeta. unfold ChatPage.handleFileClick.
  destruct (UploadModal.arrayIncludes (ChatPage.selectedFiles st)
              (UploadedFile.id file)) eqn:I; cbn.
  - apply arrayIncludes_In in I. repeat split; auto.
  - assert (N : ~ In (UploadedFile.id file) (ChatPage.selectedFiles st)).
    { intros H. apply arrayIncludes_In in H. congruence. }
    repeat split; auto.
    + apply in_app_iff. right. now left.
    + intros Hn. now apply NoDup_snoc.
Qed.



Lemma NoDup_filter {A} (p : A -> bool) (xs : list A) :
  NoDup xs -> NoDup (filter p xs).
Proof.
  induction 1 as [|x xs Hx Hn IH]; cbn; [constructor|].
  destruct (p x); [|exact IH]. constructor; [|exact IH].
  rewrite filter_In. tauto.
Qed.

(** X13. On a selection without duplicates, [handleFileSelect] keeps it
    so when it removes an id, and when it adds an id that is not
    selected; removal takes out the id and nothing else, addition adds
    the id and nothing else. *)
Theorem handleFileSelect_distinct (fileId : string) (st : ChatPage.State) :
  NoDup (ChatPage.selectedFiles st) ->
  let removed := ChatPage.handleFileSelect fileId false st in
  let added := ChatPage.handleFileSelect fileId true st in
  NoDup (ChatPage.selectedFiles removed)
  /\ (forall id, In id (ChatPage.selectedFiles removed)
                 <-> In id (ChatPage.selectedFiles st) /\ id <> fileId)
  /\ (~ In fileId (ChatPage.selectedFiles st) ->
      NoDup (ChatPage.selectedFiles added))
  /\ (forall id, In id (ChatPage.selectedFiles added)
                 <-> In id (ChatPage.selectedFiles st) \/ id = fileId).
Proof.
  intros Hn. cbn zeta. unfold ChatPage.handleFileSelect. cbn.
  split; [now apply NoDup_filter|]. split.
  - intros id. rewrite filter_In, negb_true_iff, String.eqb_neq. tauto.
  - split; [intros Hx; now apply NoDup_snoc|].
    intros id. rewrite in_app_iff. cbn. intuition congruence.
Qed.

Lemma handleFileSelect_distinct_witness :
  NoDup (ChatPage.selectedFiles
           (ChatPage.handleFileSelect "f2" true
              (ChatPage.setSelectedFiles ["f1"] ChatPage.initial))).
Proof.
  refine (proj1 (proj2 (proj2 (handleFileSelect_distinct "f2"
            (ChatPage.setSelectedFiles ["f1"] ChatPage.initial) _))) _).
  - cbn. constructor; [cbn; tauto|constructor].
  - cbn. intros [H|[]]. discriminate.
Defined.

(* ================================================================== *)
(** ** ChatPage: further properties of the message flow *)
(* ================================================================== *)

Lemma allWhiteSpace_cons (c : ascii) (s : string) :
  allWhiteSpace (String c s) <-> JS.isWhiteSpace c = true /\ allWhiteSpace s.
Proof.
  unfold allWhiteSpace. cbn. split.
  - now inversion 1.
  - intros [H1 H2]. now constructor.
Qed.

Lemma trimEnd_empty (s : string) :
  JS.trimEnd s = "" <-> allWhiteSpace s.
Proof.
  induction s as [|c s IH].
  - split; [constructor|reflexivity].
  - rewrite allWhiteSpace_cons, <- IH. cbn.
    destruct (JS.isWhiteSpace c); cbn.
    + destruct (String.eqb_spec (JS.trimEnd s) "") as [E|E].
      * tauto.
      * split; [discriminate|tauto].
    + split; [discriminate|intros [H _]; discriminate].
Qed.

Lemma trimStart_cases (s : string) :
  (allWhiteSpace s /\ JS.trimStart s = "")
  \/ (~ allWhiteSpace s
      /\ exists c t, JS.trimStart s = String c t
                     /\ JS.isWhiteSpace c = false).
Proof.
  induction s as [|c s IH].
  - left. split; [constructor|reflexivity].
  - cbn. destruct (JS.isWhiteSpace c) eqn:W.
    + destruct IH as [[A E]|[A E]].
      * left. split; [now apply allWhiteSpace_cons|exact E].
      * right. split; [|exact E]. rewrite allWhiteSpace_cons. tauto.
    + right. split.
      * rewrite allWhiteSpace_cons. intros [H _]. congruence.
      * now exists c, s.
Qed.

Lemma trim_empty (s : string) : JS.trim s = "" <-> allWhiteSpace s.
Proof.
  unfold JS.trim. destruct (trimStart_cases s) as [[A E]|[A (c & t & E & W)]].
  - rewrite E. tauto.
  - rewrite E. cbn. rewrite W. cbn. split; [discriminate|tauto].
Qed.

(** X14. A text made of white space only (the empty text included) is
    not sent: the call of [sendMessage] leaves the page as it is, hands
    no request to the chat operation and starts no call, and the submit
    button is disabled for such a text.  Any other text is sent. *)
Theorem blank_text_not_sent (s : ChatPage.Session) (text : string)
    (now date : N) :
  (allWhiteSpace text ->
   ChatPage.step s (ChatPage.Send text now date) = s
   /\ forall isLoading, ChatSectionView.canSubmit text isLoading = false)
  /\ (~ allWhiteSpace text ->
      exists userMessage request c,
        ChatPage.step s (ChatPage.Send text now date)
        = ChatPage.mkSession
            (ChatPage.setInputText ""
               (ChatPage.setMessages
                  (ChatPage.messages (ChatPage.page s) ++ [userMessage])%list
                  (ChatPage.page s)))
            (ChatPage.inflight s ++ [Some c])%list
            (ChatPage.outbox s ++ [request])%list
        /\ Message.text userMessage = JS.trim text
        /\ ChatRequest.message request = JS.trim text
        /\ ChatSectionView.canSubmit text false = true).
Proof.
  split.
  - intros H. apply trim_empty in H. split.
    + cbn. now rewrite (sendMessage_call_none _ _ _ _ H).
    + intros isLoading. unfold ChatSectionView.canSubmit. now rewrite H.
  - intros H. rewrite <- trim_empty in H. do 3 eexists. cbn.
    rewrite (sendMessage_call_some _ _ _ _ H).
    split; [reflexivity|]. cbn. repeat split.
    unfold ChatSectionView.canSubmit. apply truthy_spec in H.
    now rewrite H.
Qed.

Lemma blank_text_not_sent_witness :
  ChatPage.step ChatPage.start (ChatPage.Send "   " 1000 1000)
  = ChatPage.start
  /\ forall isLoading, ChatSectionView.canSubmit "   " isLoading = false.
Proof.
  apply (blank_text_not_sent ChatPage.start "   " 1000 1000).
  unfold allWhiteSpace. cbn. repeat constructor.
Defined.

Lemma settleAt_length (k : nat) (calls : list (option ChatPage.Closure)) :
  List.length (snd (ChatPage.settleAt k calls)) = List.length calls.
Proof.
  revert k. induction calls as [|c calls IH]; intros k;
    [now destruct k|].
  destruct k as [|k]; cbn; [reflexivity|].
  specialize (IH k). destruct (ChatPage.settleAt k calls). cbn in *.
  now rewrite IH.
Qed.

Lemma settleAt_settled (k : nat) (calls : list (option ChatPage.Closure))
    (c : ChatPage.Closure) :
  fst (ChatPage.settleAt k calls) = Some c ->
  settledCalls (snd (ChatPage.settleAt k calls)) = S (settledCalls calls).
Proof.
  revert k. induction calls as [|x calls IH]; intros k;
    [now destruct k|].
  destruct k as [|k]; cbn.
  - intros ->. reflexivity.
  - specialize (IH k). destruct (ChatPage.settleAt k calls) as [found rest].
    cbn in *. intros H. specialize (IH H). unfold settledCalls in *. cbn.
    destruct x; cbn; now rewrite IH.
Qed.

Lemma settled_appends_one (c : ChatPage.Closure)
    (result : JS.Settled ChatResponse.t) (now date : N)
    (st : ChatPage.State) :
  exists reply,
    ChatPage.messages (ChatPage.sendMessage_settled c result now date st)
    = (ChatPage.messages st ++ [reply])%list
    /\ Message.sender reply = ai.
Proof.
  destruct result as [r|e].
  - eexists. rewrite settled_fulfilled_messages. split; reflexivity.
  - eexists. cbn. split; reflexivity.
Qed.

(** X15. The message log only grows at its end: whatever calls and
    settlements run, in whatever order, the log before is a prefix of the
    log after, and each event appends at most one message. *)
Theorem messages_append_only (events : list ChatPage.Event) :
  forall s : ChatPage.Session,
    exists appended,
      ChatPage.messages (ChatPage.page (ChatPage.run s events))
      = (ChatPage.messages (ChatPage.page s) ++ appended)%list
      /\ List.length appended <= List.length events.
Proof.
  induction events as [|e events IH]; intros s.
  - exists []. cbn. now rewrite app_nil_r.
  - cbn [ChatPage.run fold_left].
    assert (S1 : exists one,
               ChatPage.messages (ChatPage.page (ChatPage.step s e))
               = (ChatPage.messages (ChatPage.page s) ++ one)%list
               /\ List.length one <= 1).
    { destruct e as [text now date|k result now date]; cbn.
      - destruct (ChatPage.sendMessage_call (ChatPage.page s) now date text)
          as [[[st1 request] c]|] eqn:E.
        + unfold ChatPage.sendMessage_call in E.
          destruct (negb _); [discriminate|]. injection E as <- _ _.
          eexists. cbn. split; [reflexivity|cbn; lia].
        + exists []. rewrite app_nil_r. split; [reflexivity|cbn; lia].
      - destruct (ChatPage.settleAt k (ChatPage.inflight s))
          as [[c|] calls].
        + cbn. destruct (settled_appends_one c result now date
                           (ChatPage.page s)) as (reply & -> & _).
          eexists. split; [reflexivity|cbn; lia].
        + exists []. rewrite app_nil_r. split; [reflexivity|cbn; lia]. }
    destruct S1 as (one & E1 & L1).
    destruct (IH (ChatPage.step s e)) as (more & E2 & L2).
    exists (one ++ more)%list. fold (ChatPage.run (ChatPage.step s e) events).
    rewrite E2, E1, <- app_assoc, length_app. split; [reflexivity|].
    cbn [List.length]. lia.
Qed.

Lemma step_files (s : ChatPage.Session) (e : ChatPage.Event) :
  filesOf (ChatPage.page (ChatPage.step s e)) = filesOf (ChatPage.page s).
Proof.
  destruct e as [text now date|k result now date]; cbn.
  - unfold ChatPage.sendMessage_call.
    destruct (negb _); reflexivity.
  - destruct (ChatPage.settleAt k (ChatPage.inflight s)) as [[c|] calls];
      [|reflexivity].
    cbn. unfold ChatPage.sendMessage_settled.
    destruct result as [r|err]; [|reflexivity].
    destruct (_ && _); reflexivity.
Qed.

(** X16. Calls and settlements of [sendMessage], in any order, change
    neither the dialog flag, nor the selection, nor the active file or
    document, nor the listing. *)
Theorem chat_leaves_files_alone (events : list ChatPage.Event) :
  forall s : ChatPage.Session,
    filesOf (ChatPage.page (ChatPage.run s events))
    = filesOf (ChatPage.page s).
Proof.
  induction events as [|e events IH]; intros s; [reflexivity|].
  cbn [ChatPage.run fold_left].
  fold (ChatPage.run (ChatPage.step s e) events).
  now rewrite IH, step_files.
Qed.

Lemma step_activeFileId (s : ChatPage.Session) (e : ChatPage.Event) :
  ChatPage.activeFileId (ChatPage.page (ChatPage.step s e))
  = ChatPage.activeFileId (ChatPage.page s).
Proof.
  pose proof (step_files s e) as H. unfold filesOf in H. congruence.
Qed.

Lemma settledCalls_snoc (calls : list (option ChatPage.Closure))
    (c : ChatPage.Closure) :
  settledCalls (calls ++ [Some c]) = settledCalls calls.
Proof.
  unfold settledCalls. rewrite filter_app. cbn. now rewrite app_nil_r.
Qed.

Lemma step_accounted (s : ChatPage.Session) (e : ChatPage.Event) :
  accounted s -> accounted (ChatPage.step s e).
Proof.
  intros (L & O & A). unfold accounted.
  rewrite step_activeFileId.
  destruct e as [text now date|k result now date]; cbn.
  - destruct (ChatPage.sendMessage_call (ChatPage.page s) now date text)
      as [[[st1 request] c]|] eqn:E; [|now repeat split].
    unfold ChatPage.sendMessage_call in E.
    destruct (negb _); [discriminate|]. injection E as <- <- <-.
    cbn [ChatPage.page ChatPage.inflight ChatPage.outbox ChatPage.messages
         ChatPage.setInputText ChatPage.setMessages ChatPage.activeFileId].
    rewrite !length_app, !filter_app, map_app, settledCalls_snoc.
    cbn. rewrite app_nil_r. repeat split; [lia|now rewrite O|exact A].
  - pose proof (settleAt_length k (ChatPage.inflight s)) as SL.
    pose proof (settleAt_settled k (ChatPage.inflight s)) as SS.
    destruct (ChatPage.settleAt k (ChatPage.inflight s)) as [[c|] calls];
      [|now repeat split].
    cbn in *. specialize (SS c eq_refl).
    destruct (settled_appends_one c result now date (ChatPage.page s))
      as (reply & -> & Hr).
    rewrite !filter_app. cbn. unfold isUser, isAi. rewrite Hr.
    rewrite app_nil_r, length_app. cbn.
    repeat split; [congruence|exact O|].
    fold isAi. rewrite A, SS. lia.
Qed.

(** X17. From a page with an empty log, whatever calls and settlements
    run and in whatever order: every call has handed over one request;
    the requests are, in order, those of the logged user messages (the
    trimmed text, the conversation id the message carries and the active
    file id); and the log holds one message of sender [ai] for each call
    that has settled. *)
Theorem session_accounted (events : list ChatPage.Event)
    (st : ChatPage.State) :
  ChatPage.messages st = [] ->
  accounted (ChatPage.run (ChatPage.mkSession st [] []) events).
Proof.
  intros Hm.
  assert (A0 : accounted (ChatPage.mkSession st [] [])).
  { unfold accounted. cbn. rewrite Hm. repeat split. }
  revert A0. generalize (ChatPage.mkSession st [] []).
  induction events as [|e events IH]; intros s A; [exact A|].
  cbn [ChatPage.run fold_left]. apply IH. now apply step_accounted.
Qed.

Lemma session_accounted_witness :
  accounted
    (ChatPage.run (ChatPage.mkSession ChatPage.initial [] []) overlapping).
Proof.
  apply (session_accounted overlapping ChatPage.initial). reflexivity.
Defined.

Lemma step_conversationId_assigned (s : ChatPage.Session)
    (e : ChatPage.Event) :
  ChatPage.conversationId (ChatPage.page s) <> None ->
  ChatPage.conversationId (ChatPage.page (ChatPage.step s e)) <> None.
Proof.
  intros H. destruct e as [text now date|k result now date]; cbn.
  - unfold ChatPage.sendMessage_call. destruct (negb _); exact H.
  - destruct (ChatPage.settleAt k (ChatPage.inflight s)) as [[c|] calls];
      [|exact H].
    cbn. unfold ChatPage.sendMessage_settled.
    destruct result as [r|err]; [|exact H].
    destruct (JS.falsy (ChatPage.closure_conversationId c)); cbn [andb];
      [|exact H].
    destruct (ChatResponse.conversation_id r) as [id|] eqn:R;
      cbn; [|exact H].
    unfold JS.falsy, JS.orUndefined.
    destruct (JS.truthy id); cbn; [discriminate|exact H].
Qed.

Lemma run_conversationId_truthy (events : list ChatPage.Event) :
  forall s : ChatPage.Session,
    ChatPage.conversationId (ChatPage.page s) <> Some "" ->
    ChatPage.conversationId (ChatPage.page (ChatPage.run s events))
    <> Some "".
Proof.
  induction events as [|e events IH]; intros s H; [exact H|].
  cbn [ChatPage.run fold_left]. apply IH.
  now apply step_conversationId_truthy.
Qed.

(** X18. In every order of calls and settlements, overlapping ones
    included: the stored conversation id is never the empty string, and
    once an id is stored the page never goes back to having none. *)
Theorem conversationId_stays_assigned (events : list ChatPage.Event) :
  forall s : ChatPage.Session,
    (ChatPage.conversationId (ChatPage.page s) <> Some "" ->
     ChatPage.conversationId (ChatPage.page (ChatPage.run s events))
     <> Some "")
    /\ (ChatPage.conversationId (ChatPage.page s) <> None ->
        ChatPage.conversationId (ChatPage.page (ChatPage.run s events))
        <> None).
Proof.
  induction events as [|e events IH]; intros s; [split; trivial|].
  cbn [ChatPage.run fold_left].
  fold (ChatPage.run (ChatPage.step s e) events).
  destruct (IH (ChatPage.step s e)) as [I1 I2]. split; intros H.
  - apply I1. now apply step_conversationId_truthy.
  - apply I2. now apply step_conversationId_assigned.
Qed.

Lemma conversationId_stays_assigned_witness :
  ChatPage.conversationId
    (ChatPage.page
       (ChatPage.run (ChatPage.run ChatPage.start overlapping)
          [ChatPage.Settle 1 (JS.Fulfilled response_c2) 2001 2001]))
  <> None.
Proof.
  apply (conversationId_stays_assigned
           [ChatPage.Settle 1 (JS.Fulfilled response_c2) 2001 2001]
           (ChatPage.run ChatPage.start overlapping)).
  vm_compute. discriminate.
Defined.

(** X19. In a session that starts without an empty stored id, a call
    made with a text that is not blank hands over exactly one request,
    which carries the trimmed text, the active file id (when it is not
    empty) and precisely the conversation id stored when the call is
    made: none while none is stored. *)
Theorem request_carries_stored_id (events : list ChatPage.Event)
    (s0 : ChatPage.Session) (text : string) (now date : N) :
  ChatPage.conversationId (ChatPage.page s0) <> Some "" ->
  JS.trim text <> "" ->
  let s := ChatPage.run s0 events in
  ChatPage.outbox (ChatPage.step s (ChatPage.Send text now date))
  = (ChatPage.outbox s
     ++ [ChatRequest.mk (JS.trim text)
           (JS.orUndefined (ChatPage.activeFileId (ChatPage.page s)))
           (ChatPage.conversationId (ChatPage.page s))])%list.
Proof.
  intros H0 Ht s.
  pose proof (run_conversationId_truthy events s0 H0) as Hs.
  fold s in Hs. cbn. rewrite (sendMessage_call_some _ _ _ _ Ht). cbn.
  do 3 f_equal. unfold JS.orUndefined.
  destruct (ChatPage.conversationId (ChatPage.page s)) as [id|];
    [|reflexivity].
  destruct (JS.truthy id) eqn:T; [reflexivity|].
  exfalso. apply Hs. f_equal.
  destruct id; [reflexivity|discriminate].
Qed.

Lemma request_carries_stored_id_witness :
  ChatPage.outbox
    (ChatPage.step
       (ChatPage.run (ChatPage.run ChatPage.start overlapping)
          [ChatPage.Settle 1 (JS.Fulfilled response_c2) 2001 2001])
       (ChatPage.Send " What if I terminate? " 3000 3000))
  = (ChatPage.outbox
       (ChatPage.run (ChatPage.run ChatPage.start overlapping)
          [ChatPage.Settle 1 (JS.Fulfilled response_c2) 2001 2001])
     ++ [ChatRequest.mk "What if I terminate?" None (Some "c2")])%list.
Proof.
  apply (request_carries_stored_id
           [ChatPage.Settle 1 (JS.Fulfilled response_c2) 2001 2001]
           (ChatPage.run ChatPage.start overlapping)
           " What if I terminate? " 3000 3000).
  - vm_compute. discriminate.
  - vm_compute. discriminate.
Defined.

Lemma sendMessage_conversationId (st : ChatPage.State) (text : string)
    (now date : N) (result : JS.Settled ChatResponse.t) (now' date' : N) :
  ChatPage.conversationId st = None ->
  ChatPage.conversationId
    (ChatPage.sendMessage st text now date result now' date')
  = if JS.truthy (JS.trim text) then
      match result with
      | JS.Fulfilled r => JS.orUndefined (ChatResponse.conversation_id r)
      | JS.Rejected _ => None
      end
    else None.
Proof.
  intros H. unfold ChatPage.sendMessage, ChatPage.sendMessage_call.
  destruct (JS.truthy (JS.trim text)); cbn [negb]; [|exact H].
  unfold ChatPage.sendMessage_settled. cbn [ChatPage.closure_conversationId].
  rewrite H. destruct result as [r|e]; [|exact H].
  unfold JS.falsy at 1. cbn [JS.orUndefined andb].
  unfold JS.falsy, JS.orUndefined.
  destruct (ChatResponse.conversation_id r) as [id|]; [|exact H].
  destruct (JS.truthy id); [reflexivity|exact H].
Qed.

(** X20. When every call settles before the next is made, starting with
    no stored id, the id stored at the end is the conversation id of the
    first exchange that was made with a text that is not blank and was
    answered with a conversation id that is not empty; it is absent when
    there is no such exchange.  Answers that fail, or carry no id, do
    not use up the assignment. *)
Theorem exchanges_store_first_id (xs : list Exchange) :
  forall st : ChatPage.State,
    ChatPage.conversationId st = None ->
    ChatPage.conversationId (exchanges st xs) = firstConversationId xs.
Proof.
  induction xs as [|x xs IH]; intros st H; [exact H|].
  destruct x as [[[[[text now] date] result] now'] date'].
  cbn [exchanges fold_left exchange firstConversationId].
  fold (exchanges (ChatPage.sendMessage st text now date result now' date')
          xs).
  pose proof (sendMessage_conversationId st text now date result now' date'
                H) as E.
  destruct (JS.truthy (JS.trim text)); [|now apply IH].
  destruct result as [r|e]; [|now apply IH].
  destruct (JS.orUndefined (ChatResponse.conversation_id r)) as [id|] eqn:O;
    [|now apply IH].
  apply exchanges_keep_assigned; [|exact E].
  unfold JS.orUndefined in O.
  destruct (ChatResponse.conversation_id r) as [id'|]; [|discriminate].
  destruct (JS.truthy id') eqn:T; [|discriminate].
  injection O as <-. now apply truthy_spec.
Qed.

Lemma exchanges_store_first_id_witness :
  ChatPage.conversationId (exchanges ChatPage.initial four_exchanges)
  = Some "c1".
Proof.
  apply (exchanges_store_first_id four_exchanges ChatPage.initial).
  reflexivity.
Defined.

(** X21. The three versions of [sendMessage] agree except for the text
    of a failure.  On the same messages, input, stored id (not the empty
    string) and active file, the page version and the two [ChatSection]
    versions append the same user message, clear the input, hand over
    the same request and keep the same id in the closure; settling a
    fulfilled call gives the same messages and stored id in all three;
    and settling a rejected call gives the same result in the page
    version and in [internalSendMessage]. *)
Theorem sendMessage_versions_agree (st : ChatPage.State) (now date : N) :
  (ChatPage.conversationId st <> Some "" ->
   forall text,
     option_map
       (fun '(st1, request, c) =>
          (ownView st1, request, ChatPage.closure_conversationId c))
       (ChatPage.sendMessage_call st now date text)
     = option_map
         (fun '(st1, request, c) =>
            (st1, request, ChatSectionOwnState.closure_conversationId c))
         (ChatSectionOwnState.sendMessage_call (ChatPage.activeFileId st)
            (ownView st) now date text)
     /\ option_map
          (fun '(st1, request, c) =>
             (internalView st1, request, ChatPage.closure_conversationId c))
          (ChatPage.sendMessage_call st now date text)
        = option_map
            (fun '(st1, request, c) =>
               (st1, request, ChatSection.closure_conversationId c))
            (ChatSection.internalSendMessage_call (ChatPage.activeFileId st)
               (internalView st) now date text))
  /\ (forall captured r,
        ownView
          (ChatPage.sendMessage_settled (ChatPage.mkClosure captured)
             (JS.Fulfilled r) now date st)
        = ChatSectionOwnState.sendMessage_settled
            (ChatSectionOwnState.mkClosure captured) (JS.Fulfilled r)
            now date (ownView st))
  /\ (forall captured result notify,
        internalView
          (ChatPage.sendMessage_settled (ChatPage.mkClosure captured)
             result now date st)
        = fst (ChatSection.internalSendMessage_settled notify
                 (ChatSection.mkClosure captured) result now date
                 (internalView st))).
Proof.
  split; [|split].
  - intros H text.
    assert (O : JS.orUndefined (ChatPage.conversationId st)
                = ChatPage.conversationId st).
    { unfold JS.orUndefined.
      destruct (ChatPage.conversationId st) as [[|a id]|];
        [congruence|reflexivity|reflexivity]. }
    unfold ChatPage.sendMessage_call,
      ChatSectionOwnState.sendMessage_call,
      ChatSection.internalSendMessage_call.
    destruct (negb (JS.truthy (JS.trim text))); [split; reflexivity|].
    cbn. rewrite !O. split; reflexivity.
  - intros captured r. unfold ChatPage.sendMessage_settled,
      ChatSectionOwnState.sendMessage_settled. cbn.
    destruct (_ && _); reflexivity.
  - intros captured result notify.
    unfold ChatPage.sendMessage_settled,
      ChatSection.internalSendMessage_settled. cbn.
    destruct result as [r|e]; [|reflexivity].
    destruct (_ && _); reflexivity.
Qed.

Lemma sendMessage_versions_agree_witness :
  option_map
    (fun '(st1, request, c) =>
       (ownView st1, request, ChatPage.closure_conversationId c))
    (ChatPage.sendMessage_call ChatPage.initial 1000 1000 " hello ")
  = option_map
      (fun '(st1, request, c) =>
         (st1, request, ChatSectionOwnState.closure_conversationId c))
      (ChatSectionOwnState.sendMessage_call
         (ChatPage.activeFileId ChatPage.initial)
         (ownView ChatPage.initial) 1000 1000 " hello ").
Proof.
  refine (proj1 (proj1 (sendMessage_versions_agree ChatPage.initial
                          1000 1000) _ " hello ")).
  cbn. discriminate.
Defined.

(* ================================================================== *)
(** ** The title of the chat and the listing *)
(* ================================================================== *)

Lemma string_length_app (a b : string) :
  String.length (a ++ b) = String.length a + String.length b.
Proof. induction a as [|c a IH]; cbn; [reflexivity|now rewrite IH]. Qed.

Lemma isPdfSuffix_length (s : string) :
  ChatSectionView.isPdfSuffix s = true -> String.length s = 4.
Proof.
  destruct s as [|c0 [|c1 [|c2 [|c3 [|c4 s]]]]]; cbn; congruence.
Qed.

Lemma dropPdfSuffix_append (base ext : string) :
  ChatSectionView.isPdfSuffix ext = true ->
  ChatSectionView.dropPdfSuffix (base ++ ext) = base.
Proof.
  intros H. induction base as [|c base IH].
  - cbn [append]. destruct ext; cbn [ChatSectionView.dropPdfSuffix];
      now rewrite H.
  - change (String c base ++ ext) with (String c (base ++ ext)).
    cbn [ChatSectionView.dropPdfSuffix].
    destruct (ChatSectionView.isPdfSuffix (String c (base ++ ext))) eqn:P.
    + apply isPdfSuffix_length in P. apply isPdfSuffix_length in H.
      cbn in P. rewrite string_length_app in P. lia.
    + now rewrite IH.
Qed.

Lemma dropPdfSuffix_other (s : string) :
  (forall base ext, s = base ++ ext ->
                    ChatSectionView.isPdfSuffix ext = false) ->
  ChatSectionView.dropPdfSuffix s = s.
Proof.
  induction s as [|c s IH]; intros H.
  - reflexivity.
  - cbn [ChatSectionView.dropPdfSuffix].
    rewrite (H "" (String c s) eq_refl). f_equal. apply IH.
    intros base ext ->. apply (H (String c base) ext). reflexivity.
Qed.

(** X22. The title is "Document Analysis" when there is no active
    document or its name is empty.  Otherwise it is the name without one
    final ".pdf", in any mix of upper and lower case: a name that ends
    with such an extension loses exactly that ending (so "a.pdf.pdf"
    gives "a.pdf", and the name ".pdf" gives the empty title), and any
    other name is shown as it is. *)
Theorem titleDisplay_drops_extension :
  ChatSectionView.titleDisplay None = "Document Analysis"
  /\ ChatSectionView.titleDisplay (Some "") = "Document Analysis"
  /\ (forall base ext,
        ChatSectionView.isPdfSuffix ext = true ->
        ChatSectionView.titleDisplay (Some (base ++ ext)) = base)
  /\ (forall name,
        name <> "" ->
        (forall base ext, name = base ++ ext ->
                          ChatSectionView.isPdfSuffix ext = false) ->
        ChatSectionView.titleDisplay (Some name) = name)
  /\ (forall ext,
        ChatSectionView.isPdfSuffix ext = true
        <-> exists p d f,
              ext = String "." (String p (String d (String f "")))
              /\ (p = "p" \/ p = "P")%char
              /\ (d = "d" \/ d = "D")%char
              /\ (f = "f" \/ f = "F")%char).
Proof.
  split; [reflexivity|]. split; [reflexivity|]. split; [|split].
  - intros base ext H. unfold ChatSectionView.titleDisplay, JS.orUndefined.
    replace (JS.truthy (base ++ ext)) with true.
    + now apply dropPdfSuffix_append.
    + symmetry. apply truthy_append_r. apply truthy_spec.
      intros ->. discriminate.
  - intros name Hn H. unfold ChatSectionView.titleDisplay, JS.orUndefined.
    apply truthy_spec in Hn. rewrite Hn. now apply dropPdfSuffix_other.
  - intros ext. split.
    + destruct ext as [|c0 [|c1 [|c2 [|c3 [|c4 s]]]]]; cbn; try discriminate.
      unfold ChatSectionView.eqIgnoreCase.
      rewrite !andb_true_iff, !orb_true_iff, !Ascii.eqb_eq.
      intros [[[-> H1] H2] H3]. now exists c1, c2, c3.
    + intros (p & d & f & -> & H1 & H2 & H3). cbn.
      unfold ChatSectionView.eqIgnoreCase.
      rewrite !andb_true_iff, !orb_true_iff, !Ascii.eqb_eq. tauto.
Qed.

Lemma titleDisplay_drops_extension_witness :
  ChatSectionView.titleDisplay (Some ("lease.pdf" ++ ".PDF")) = "lease.pdf".
Proof.
  apply (proj1 (proj2 (proj2 titleDisplay_drops_extension))
           "lease.pdf" ".PDF").
  reflexivity.
Defined.

(** X23. What the page makes of the listing.  With no data, or data
    without files, nothing is listed: once loading has ended the dialog
    is opened and no file is selected.  With files listed, there are as
    many uploaded files as descriptors, in the same order; with an empty
    selection the first descriptor becomes the selected and the active
    file, by its [file_id] and [filename]; and the dialog is not opened
    by the effect. *)
Theorem listing_drives_selection (parseDate : string -> N)
    (st : ChatPage.State) :
  (forall filesData,
      filesData = None \/ filesData = Some None \/ filesData = Some (Some []) ->
      let st' :=
        ChatPage.setUploadedFiles
          (ChatPageListing.uploadedFiles parseDate filesData) st in
      ChatPage.showUploadModal (ChatPageListing.openWhenEmpty false st')
      = true
      /\ ChatPage.defaultSelection st' = st'
      /\ ChatPageListing.openWhenEmpty true st' = st')
  /\ (forall files,
        List.length
          (ChatPageListing.uploadedFiles parseDate (Some (Some files)))
        = List.length files
        /\ map UploadedFile.id
             (ChatPageListing.uploadedFiles parseDate (Some (Some files)))
           = map FileDescriptor.file_id files)
  /\ (forall d rest,
        ChatPage.selectedFiles st = [] ->
        let st' :=
          ChatPage.setUploadedFiles
            (ChatPageListing.uploadedFiles parseDate
               (Some (Some (d :: rest)))) st in
        ChatPage.selectedFiles (ChatPage.defaultSelection st')
        = [FileDescriptor.file_id d]
        /\ ChatPage.activeFileId (ChatPage.defaultSelection st')
           = Some (FileDescriptor.file_id d)
        /\ ChatPage.activeDocument (ChatPage.defaultSelection st')
           = Some (FileDescriptor.filename d)
        /\ forall isLoading,
             ChatPageListing.openWhenEmpty isLoading st' = st').
Proof.
  split; [|split].
  - intros filesData H.
    assert (E : ChatPageListing.uploadedFiles parseDate filesData = []).
    { destruct H as [->|[->| ->]]; reflexivity. }
    cbn zeta. rewrite E. split; [reflexivity|]. split.
    + apply defaultSelection_idle. now right.
    + reflexivity.
  - intros files. cbn. rewrite length_map, map_map. split; reflexivity.
  - intros d rest Hsel. cbn zeta. destruct st. cbn in Hsel. subst.
    cbn. repeat split. intros isLoading.
    unfold ChatPageListing.openWhenEmpty. cbn. now rewrite andb_false_r.
Qed.

Lemma listing_drives_selection_witness :
  let st' :=
    ChatPage.setUploadedFiles
      (ChatPageListing.uploadedFiles (fun _ => 0%N)
         (Some (Some [FileDescriptor.mk "f1" "lease.pdf" 1000
                        "application/pdf" "2024-01-01"])))
      ChatPage.initial in
  ChatPage.selectedFiles (ChatPage.defaultSelection st') = ["f1"]
  /\ ChatPage.activeFileId (ChatPage.defaultSelection st') = Some "f1"
  /\ ChatPage.activeDocument (ChatPage.defaultSelection st')
     = Some "lease.pdf"
  /\ forall isLoading, ChatPageListing.openWhenEmpty isLoading st' = st'.
Proof.
  apply (proj2 (proj2 (listing_drives_selection (fun _ => 0%N)
                         ChatPage.initial))
           (FileDescriptor.mk "f1" "lease.pdf" 1000 "application/pdf"
              "2024-01-01") []).
  reflexivity.
Defined.

Lemma filter_all {A} (p : A -> bool) (xs : list A) :
  (forall x, p x = true) -> filter p xs = xs.
Proof.
  intros H. induction xs as [|x xs IH]; [reflexivity|].
  cbn. now rewrite H, IH.
Qed.

(** X24. An empty batch changes nothing: [handleFiles] on no files
    returns the staged files and the errors as they are, so a drop or a
    file input without files (or with a missing file list) leaves both
    untouched; a drop ends the drag highlight in every case, and drag
    events never change what is staged or the errors. *)
Theorem empty_batch_changes_nothing (count : nat)
    (st : UploadModalEvents.State) :
  UploadModal.handleFiles count (UploadModalEvents.staging st) []
  = UploadModalEvents.staging st
  /\ (forall files,
        files = None \/ files = Some [] ->
        UploadModalEvents.handleDrop count files st
        = UploadModalEvents.mkState false (UploadModalEvents.staging st)
        /\ UploadModalEvents.handleFileInput count files st = st)
  /\ (forall files,
        UploadModalEvents.dragActive
          (UploadModalEvents.handleDrop count files st) = false
        /\ UploadModalEvents.staging
             (UploadModalEvents.handleDrop count files st)
           = UploadModalEvents.staging
               (UploadModalEvents.handleFileInput count files st))
  /\ (forall type,
        UploadModalEvents.staging (UploadModalEvents.handleDrag type st)
        = UploadModalEvents.staging st).
Proof.
  split; [|split; [|split]].
  - rewrite handleFiles_verdict. cbn. rewrite !app_nil_r.
    rewrite filter_all by reflexivity.
    now destruct (UploadModalEvents.staging st).
  - intros files [->| ->]; split; reflexivity.
  - intros files. unfold UploadModalEvents.handleDrop,
      UploadModalEvents.handleFileInput.
    destruct files as [fs|]; [|split; reflexivity].
    destruct (0 <? List.length fs)%nat; split; reflexivity.
  - intros type. unfold UploadModalEvents.handleDrag.
    destruct (_ || _); [reflexivity|].
    destruct (String.eqb _ _); reflexivity.
Qed.

Lemma empty_batch_changes_nothing_witness :
  UploadModalEvents.handleDrop 3 (Some [])
    (UploadModalEvents.mkState true staged_two)
  = UploadModalEvents.mkState false staged_two
  /\ UploadModalEvents.handleFileInput 3 (Some [])
       (UploadModalEvents.mkState true staged_two)
     = UploadModalEvents.mkState true staged_two.
Proof.
  apply (proj1 (proj2 (empty_batch_changes_nothing 3
                         (UploadModalEvents.mkState true staged_two)))
           (Some [])).
  now right.
Defined.
